(** * sqlgen: MySQL table schemas to Go struct declarations

    A shallow embedding of [internal/generator/generator.go] and of the
    [Column]/[Table] records of [internal/schema/reader.go], followed by
    the properties of the type mapper, the two identifier case
    converters, the declaration emitter and the overwrite policy of
    [Generate].

    Go strings are byte sequences: they are modelled by [string], whose
    [ascii] elements are exactly the 256 byte values.  Runes are [Z]. *)

From Stdlib Require Import ZArith Lia List Ascii String Bool Permutation.
From stdpp Require Import gmap strings list fin_maps.
From Stdlib Require Import DecimalString.

Open Scope string_scope.

(** ** Bytes and the characters that Rocq literals cannot spell *)

Definition byteZ (c : ascii) : Z := Z.of_N (N_of_ascii c).
Definition Zbyte (z : Z) : ascii := ascii_of_N (Z.to_N (z mod 256)).

Definition nl : string := String "010"%char "".
Definition tab : string := String "009"%char "".
Definition dquote : string := String "034"%char "".

(** Go slice expressions on strings, [s[:n]] and [s[n:]] (byte offsets). *)
Definition sliceTo (s : string) (n : nat) : string := substring 0 n s.
Definition sliceFrom (s : string) (n : nat) : string :=
  substring n (String.length s - n) s.

(** ** Package unicode/utf8 *)

Module utf8.

Local Open Scope Z_scope.

Definition RuneError : Z := 0xFFFD.
Definition RuneSelf : Z := 0x80.
Definition MaxRune : Z := 0x10FFFF.
Definition surrogateMin : Z := 0xD800.
Definition surrogateMax : Z := 0xDFFF.
Definition rune1Max : Z := 0x7F.
Definition rune2Max : Z := 0x7FF.
Definition rune3Max : Z := 0xFFFF.

Definition tx : Z := 0x80.
Definition t2 : Z := 0xC0.
Definition t3 : Z := 0xE0.
Definition t4 : Z := 0xF0.
Definition maskx : Z := 0x3F.
Definition mask2 : Z := 0x1F.
Definition mask3 : Z := 0x0F.
Definition mask4 : Z := 0x07.
Definition locb : Z := 0x80.
Definition hicb : Z := 0xBF.

(** One entry of the table [first]: [AS] is an ASCII byte, [XX] an
    invalid leading byte, [Lead sz lo hi] the leading byte of a
    sequence of [sz] bytes whose second byte must lie in [lo..hi]
    (the [acceptRanges] entry the table points to). *)
Inductive firstInfo : Type :=
| AS
| XX
| Lead (sz : nat) (lo hi : Z).

Definition first (b : Z) : firstInfo :=
  if b <? 0x80 then AS
  else if b <? 0xC2 then XX
  else if b <? 0xE0 then Lead 2 locb hicb
  else if b =? 0xE0 then Lead 3 0xA0 hicb
  else if b <? 0xED then Lead 3 locb hicb
  else if b =? 0xED then Lead 3 locb 0x9F
  else if b <? 0xF0 then Lead 3 locb hicb
  else if b =? 0xF0 then Lead 4 0x90 hicb
  else if b <? 0xF4 then Lead 4 locb hicb
  else if b =? 0xF4 then Lead 4 locb 0x8F
  else XX.

Definition outside (lo hi b : Z) : bool := (b <? lo) || (hi <? b).

(** [utf8.DecodeRuneInString]: the first rune of [s] and its width in
    bytes; [RuneError] with width 0 on the empty string and with
    width 1 on an invalid or truncated encoding. *)
Definition DecodeRuneInString (s : string) : Z * nat :=
  match s with
  | "" => (RuneError, 0%nat)
  | String c0 r0 =>
    let s0 := byteZ c0 in
    match first s0 with
    | AS => (s0, 1%nat)
    | XX => (RuneError, 1%nat)
    | Lead sz lo hi =>
      if (String.length s <? sz)%nat then (RuneError, 1%nat) else
      match r0 with
      | "" => (RuneError, 1%nat)
      | String c1 r1 =>
        let s1 := byteZ c1 in
        if outside lo hi s1 then (RuneError, 1%nat)
        else if (sz <=? 2)%nat then
          (Z.lor (Z.shiftl (Z.land s0 mask2) 6) (Z.land s1 maskx), 2%nat)
        else
          match r1 with
          | "" => (RuneError, 1%nat)
          | String c2 r2 =>
            let s2 := byteZ c2 in
            if outside locb hicb s2 then (RuneError, 1%nat)
            else if (sz <=? 3)%nat then
              (Z.lor (Z.lor (Z.shiftl (Z.land s0 mask3) 12)
                            (Z.shiftl (Z.land s1 maskx) 6))
                     (Z.land s2 maskx), 3%nat)
            else
              match r2 with
              | "" => (RuneError, 1%nat)
              | String c3 _ =>
                let s3 := byteZ c3 in
                if outside locb hicb s3 then (RuneError, 1%nat)
                else
                  (Z.lor (Z.lor (Z.lor (Z.shiftl (Z.land s0 mask4) 18)
                                       (Z.shiftl (Z.land s1 maskx) 12))
                                (Z.shiftl (Z.land s2 maskx) 6))
                         (Z.land s3 maskx), 4%nat)
              end
          end
      end
    end
  end.

(** [utf8.AppendRune] on an empty destination: the UTF-8 encoding of
    [r].  [uint32(r)] sends a negative rune above [MaxRune], so it is
    encoded as [RuneError], like a surrogate. *)
Definition encode3 (r : Z) : string :=
  String (Zbyte (Z.lor t3 (Z.shiftr r 12)))
    (String (Zbyte (Z.lor tx (Z.land (Z.shiftr r 6) maskx)))
      (String (Zbyte (Z.lor tx (Z.land r maskx))) "")).

Definition AppendRune (r : Z) : string :=
  let i := r mod 2 ^ 32 in
  if i <=? rune1Max then String (Zbyte r) ""
  else if i <=? rune2Max then
    String (Zbyte (Z.lor t2 (Z.shiftr r 6)))
      (String (Zbyte (Z.lor tx (Z.land r maskx))) "")
  else if (MaxRune <? i) || ((surrogateMin <=? i) && (i <=? surrogateMax))
  then encode3 RuneError
  else if i <=? rune3Max then encode3 r
  else
    String (Zbyte (Z.lor t4 (Z.shiftr r 18)))
      (String (Zbyte (Z.lor tx (Z.land (Z.shiftr r 12) maskx)))
        (String (Zbyte (Z.lor tx (Z.land (Z.shiftr r 6) maskx)))
          (String (Zbyte (Z.lor tx (Z.land r maskx))) ""))).

(** [utf8.RuneLen]: bytes needed to encode [r], [-1] if [r] is not
    encodable. *)
Definition RuneLen (r : Z) : Z :=
  if r <? 0 then -1
  else if r <=? rune1Max then 1
  else if r <=? rune2Max then 2
  else if (surrogateMin <=? r) && (r <=? surrogateMax) then -1
  else if r <=? rune3Max then 3
  else if r <=? MaxRune then 4
  else -1.

End utf8.

(** ** [for i, r := range s] over a string

    The loop yields, for each UTF-8 sequence of [s], the byte offset
    where it starts and the decoded rune, and advances by the width of
    the sequence (one byte on an invalid encoding).  [rangeFrom skip i s]
    walks [s], whose first byte sits at offset [i], with [skip] bytes of
    the current sequence still to step over. *)

Fixpoint rangeFrom (skip i : nat) (s : string) : list (nat * Z) :=
  match s with
  | "" => []
  | String _ s' =>
    match skip with
    | S k => rangeFrom k (S i) s'
    | O =>
      let '(r, w) := utf8.DecodeRuneInString s in
      (i, r) :: rangeFrom (w - 1) (S i) s'
    end
  end.

Definition stringRange (s : string) : list (nat * Z) := rangeFrom 0 0 s.

(** ** Package unicode

    The functions below are Go's, with their ASCII and Latin-1 fast
    paths written out.  Beyond those the standard library consults the
    Unicode tables ([unicode.Upper], [unicode.CaseRanges]); the tables
    are data of the Go distribution and are taken as parameters. *)

Class UnicodeTables : Type := {
  (** [isExcludingLatin(Upper, r)], consulted for [r > MaxLatin1] *)
  Upper_excludingLatin : Z -> bool;
  (** [To(UpperCase, r)] and [To(LowerCase, r)], consulted for
      [r > MaxASCII] *)
  To_UpperCase : Z -> Z;
  To_LowerCase : Z -> Z
}.

Module unicode.
Section Tables.
Context {T : UnicodeTables}.
Local Open Scope Z_scope.

Definition MaxASCII : Z := 0x7F.
Definition MaxLatin1 : Z := 0xFF.

(** The rows of [properties] whose class is [pLu]: A-Z, U+00C0-U+00D6
    and U+00D8-U+00DE. *)
Definition latin1Upper (r : Z) : bool :=
  ((0x41 <=? r) && (r <=? 0x5A))
  || ((0xC0 <=? r) && (r <=? 0xD6))
  || ((0xD8 <=? r) && (r <=? 0xDE)).

Definition IsUpper (r : Z) : bool :=
  if (r mod 2 ^ 32) <=? MaxLatin1 then latin1Upper (r mod 256)
  else Upper_excludingLatin r.

Definition ToLower (r : Z) : Z :=
  if r <=? MaxASCII then
    (if (0x41 <=? r) && (r <=? 0x5A) then r + 32 else r)
  else To_LowerCase r.

Definition ToUpper (r : Z) : Z :=
  if r <=? MaxASCII then
    (if (0x61 <=? r) && (r <=? 0x7A) then r - 32 else r)
  else To_UpperCase r.

End Tables.
End unicode.

(** ** Package strings *)

Module strings.
Section Tables.
Context {T : UnicodeTables}.

(** [strings.Builder]: the accumulated bytes. *)
Definition Builder : Type := string.
Definition WriteString (b : Builder) (s : string) : Builder := b +:+ s.
Definition WriteRune (b : Builder) (r : Z) : Builder :=
  b +:+ utf8.AppendRune r.

Fixpoint mapBytes (f : ascii -> ascii) (s : string) : string :=
  match s with
  | "" => ""
  | String c s' => String (f c) (mapBytes f s')
  end.

Fixpoint allBytes (p : ascii -> bool) (s : string) : bool :=
  match s with
  | "" => true
  | String c s' => p c && allBytes p s'
  end.

Fixpoint anyByte (p : ascii -> bool) (s : string) : bool :=
  match s with
  | "" => false
  | String c s' => p c || anyByte p s'
  end.

Definition isLowerByte (c : ascii) : bool :=
  ((0x61 <=? byteZ c) && (byteZ c <=? 0x7A))%Z.
Definition upperByte (c : ascii) : ascii :=
  if isLowerByte c then Zbyte (byteZ c - 32) else c.

(** [strings.Map], second loop: every rune of the remainder is mapped
    and written again; a negative result drops the rune. *)
Definition mapRest (mapping : Z -> Z) (s : string) : Builder :=
  fold_left
    (fun b e => let r := mapping e.2 in
                if (0 <=? r)%Z then WriteRune b r else b)
    (stringRange s) "".

(** [strings.Map], first loop: the first rune that the mapping changes
    or that is an invalid byte, as (offset, width, mapped rune); [None]
    when the loop runs to its end. *)
Fixpoint mapFirst (mapping : Z -> Z) (s : string) (rs : list (nat * Z))
  : option (nat * nat * Z) :=
  match rs with
  | [] => None
  | (i, c) :: rs' =>
    let r := mapping c in
    if (r =? c)%Z && negb (c =? utf8.RuneError)%Z then mapFirst mapping s rs'
    else if (c =? utf8.RuneError)%Z then
      let '(c', width) := utf8.DecodeRuneInString (sliceFrom s i) in
      if negb (width =? 1)%nat && (r =? c')%Z then mapFirst mapping s rs'
      else Some (i, width, r)
    else Some (i, Z.to_nat (utf8.RuneLen c), r)
  end.

Definition Map (mapping : Z -> Z) (s : string) : string :=
  match mapFirst mapping s (stringRange s) with
  | None => s
  | Some (i, width, r) =>
    let b := WriteString "" (sliceTo s i) in
    let b := if (0 <=? r)%Z then WriteRune b r else b in
    b +:+ mapRest mapping (sliceFrom s (i + width))
  end.

(** [strings.ToUpper]: the ASCII fast path, else [Map(unicode.ToUpper, s)]. *)
Definition ToUpper (s : string) : string :=
  if allBytes (fun c => (byteZ c <? utf8.RuneSelf)%Z) s then
    (if anyByte isLowerByte s then mapBytes upperByte s else s)
  else Map unicode.ToUpper s.

(** [strings.Split(s, sep)] for a separator of one byte, the only kind
    the generator passes: the substrings between the separators, so
    always at least one. *)
Fixpoint Split (s : string) (sep : ascii) : list string :=
  match s with
  | "" => [""]
  | String c s' =>
    if Ascii.eqb c sep then "" :: Split s' sep
    else match Split s' sep with
         | p :: ps => String c p :: ps
         | [] => [String c ""]
         end
  end.

(** [strings.Join(elems, sep)] *)
Definition Join (elems : list string) (sep : string) : string :=
  String.concat sep elems.

End Tables.
End strings.

(** ** Package schema *)

(** Modelled from the spec: the field [IsUnsigned] of [Column].  The
    generator reads [col.IsUnsigned] and the tests of the schema package
    set it, but the declaration of [Column] under
    [internal/schema/reader.go] predates it; the spec's data model lists
    it as the unsigned flag of a column, meaningful only for the types
    of the integer family.  The other fields are those of the
    declaration. *)
Record Column : Type := {
  Name : string;
  DataType : string;
  IsNullable : bool;
  IsUnsigned : bool;
  ColumnKey : string;
  Extra : string;
  Comment : string
}.

(** [Table.Name] is [TableName] here, [Name] being the column's. *)
Record Table : Type := {
  TableName : string;
  Columns : list Column
}.

(** ** The collaborators of the generator

    What the generator asks of the Go runtime and of the operating
    system is kept abstract.  [mapKeys m] is the order in which one
    execution of [for k := range m] visits the keys of [m]: the language
    leaves it unspecified, so two runs are two instances.  The file
    system is the finite map from the paths [os.Stat] finds to their
    contents. *)

Class GoRuntime : Type := {
  mapKeys : gmap string bool -> list string
}.

(** The one thing the language promises of a map range: every key is
    visited exactly once. *)
Definition mapKeys_spec (R : GoRuntime) : Prop :=
  forall m : gmap string bool, Permutation (mapKeys m) (map fst (map_to_list m)).

Class Platform : Type := {
  (** [os.MkdirAll(dir, 0755)]: [true] when it returns an error *)
  MkdirAll_fails : string -> gmap string string -> bool;
  (** [format.Source]: [None] when it returns an error *)
  format_Source : string -> option string;
  (** [filepath.Join] of two elements *)
  filepath_Join : string -> string -> string;
  (** [os.WriteFile(path, data, 0644)]: [None] when it succeeds, and
      then the file holds [data]; [Some fs] when it returns an error,
      leaving the files as [fs] *)
  WriteFile_fails : string -> string -> gmap string string
                    -> option (gmap string string)
}.

Record World : Type := {
  files : gmap string string;
  (** paths the confirmation callback has been asked about, oldest first *)
  prompts : list string
}.

(** ** Package generator (current revision) *)

(** [switch x { case a, b, c: ... }] on strings *)
Definition oneOf (x : string) (cases : list string) : bool :=
  existsb (String.eqb x) cases.

Record Generator : Type := {
  packageName : string;
  outputDir : string;
  force : bool;
  confirmFunc : option (string -> bool)
}.

Definition Option : Type := Generator -> Generator.

Definition WithForce (f : bool) : Option := fun g =>
  {| packageName := packageName g; outputDir := outputDir g;
     force := f; confirmFunc := confirmFunc g |}.

Definition WithConfirmFunc (fn : string -> bool) : Option := fun g =>
  {| packageName := packageName g; outputDir := outputDir g;
     force := force g; confirmFunc := Some fn |}.

Definition New (pkg dir : string) (opts : list Option) : Generator :=
  fold_left (fun g opt => opt g) opts
    {| packageName := pkg; outputDir := dir;
       force := false; confirmFunc := None |}.

(** The values of Go's [error] that [Generate] returns other than
    [nil]; [nil] is [None]. *)
Inductive error : Type :=
| ErrSkipped
| ErrCreateDir
| ErrFormat (code : string)
| ErrWriteFile.

(** The value of the local variable [goType] after the first [switch]
    of [mysqlTypeToGo]. *)
Definition goType (dataType : string) (unsigned : bool) : string :=
  if oneOf dataType ["tinyint"] then
    (if unsigned then "uint8" else "int8")
  else if oneOf dataType ["smallint"] then
    (if unsigned then "uint16" else "int16")
  else if oneOf dataType ["mediumint"; "int"; "integer"] then
    (if unsigned then "uint32" else "int32")
  else if oneOf dataType ["bigint"] then
    (if unsigned then "uint64" else "int64")
  else if oneOf dataType ["float"] then "float32"
  else if oneOf dataType ["double"; "real"] then "float64"
  else if oneOf dataType ["decimal"; "numeric"] then "float64"
  else if oneOf dataType ["char"; "varchar"; "text"; "tinytext";
                          "mediumtext"; "longtext"; "enum"; "set"] then "string"
  else if oneOf dataType ["binary"; "varbinary"; "blob"; "tinyblob";
                          "mediumblob"; "longblob"] then "[]byte"
  else if oneOf dataType ["datetime"; "timestamp"; "date"; "time"] then
    "time.Time"
  else if oneOf dataType ["year"] then
    (if unsigned then "uint16" else "int16")
  else if oneOf dataType ["bit"] then "[]byte"
  else if oneOf dataType ["json"] then "string"
  else "string".

Definition mysqlTypeToGo (dataType : string) (nullable unsigned : bool)
  : string :=
  let goType := goType dataType unsigned in
  if nullable then
    if oneOf goType ["int8"; "int16"; "int32"; "int64";
                     "uint8"; "uint16"; "uint32"; "uint64"] then "*" +:+ goType
    else if oneOf goType ["float32"; "float64"] then "*" +:+ goType
    else if oneOf goType ["string"] then "*string"
    else if oneOf goType ["[]byte"] then "[]byte"
    else if oneOf goType ["time.Time"] then "*time.Time"
    else goType
  else goType.

Section Generator.
Context {T : UnicodeTables} {R : GoRuntime} {P : Platform}.

Definition toSnakeCase (s : string) : string :=
  fold_left
    (fun (result : strings.Builder) '(i, r) =>
       if unicode.IsUpper r then
         let result :=
           if (0 <? i)%nat then strings.WriteRune result 0x5F else result in
         strings.WriteRune result (unicode.ToLower r)
       else strings.WriteRune result r)
    (stringRange s) "".

(** The body of the loop of [toCamelCase] for index [i]. *)
Definition capitalizeAt (parts : list string) (i : nat) : list string :=
  match parts !! i with
  | Some p =>
    if (0 <? String.length p)%nat
    then <[i := strings.ToUpper (sliceTo p 1) +:+ sliceFrom p 1]> parts
    else parts
  | None => parts
  end.

Definition toCamelCase (s : string) : string :=
  let parts := strings.Split s "_"%char in
  let parts := fold_left capitalizeAt (seq 0 (length parts)) parts in
  strings.Join parts "".

Definition collectImports (table : Table) : list string :=
  let imports :=
    fold_left
      (fun (imports : gmap string bool) col =>
         if oneOf (DataType col) ["datetime"; "timestamp"; "date"; "time"]
         then <["time" := true]> imports
         else imports)
      (Columns table) ∅ in
  fold_left (fun result imp => (result ++ [imp])%list) (mapKeys imports) [].

(** [fmt.Sprintf("%q", imp)] for an import path: the paths that reach
    it are ["time"] and, in the first revision, ["database/sql"],
    printable ASCII with nothing to escape. *)
Definition quoted (imp : string) : string := dquote +:+ imp +:+ dquote.

(** One iteration of the loop over [table.Columns] in [generateStruct]. *)
Definition writeField (buf : string) (col : Column) : string :=
  let fieldName := toCamelCase (Name col) in
  let fieldType :=
    mysqlTypeToGo (DataType col) (IsNullable col) (IsUnsigned col) in
  let tag := "`db:" +:+ dquote +:+ Name col +:+ dquote +:+ "`" in
  strings.WriteString buf
    (tab +:+ fieldName +:+ " " +:+ fieldType +:+ " " +:+ tag +:+ nl).

Definition generateStruct (g : Generator) (table : Table) : string :=
  let buf := strings.WriteString "" ("package " +:+ packageName g +:+ nl +:+ nl) in
  let imports := collectImports table in
  let buf :=
    if (0 <? length imports)%nat then
      let buf := strings.WriteString buf ("import (" +:+ nl) in
      let buf :=
        fold_left
          (fun buf imp => strings.WriteString buf (tab +:+ quoted imp +:+ nl))
          imports buf in
      strings.WriteString buf (")" +:+ nl +:+ nl)
    else buf in
  let structName := toCamelCase (TableName table) in
  let buf := strings.WriteString buf ("type " +:+ structName +:+ " struct {" +:+ nl) in
  let buf := fold_left writeField (Columns table) buf in
  strings.WriteString buf ("}" +:+ nl).

Definition Generate (g : Generator) (table : Table) (w : World)
  : option error * World :=
  if MkdirAll_fails (outputDir g) (files w) then (Some ErrCreateDir, w)
  else
    let code := generateStruct g table in
    match format_Source code with
    | None => (Some (ErrFormat code), w)
    | Some formatted =>
      let filename := toSnakeCase (TableName table) +:+ ".go" in
      let filePath := filepath_Join (outputDir g) filename in
      let write (w : World) : option error * World :=
        match WriteFile_fails filePath formatted (files w) with
        | Some fs => (Some ErrWriteFile, {| files := fs; prompts := prompts w |})
        | None =>
          (None, {| files := <[filePath := formatted]> (files w);
                    prompts := prompts w |})
        end in
      match files w !! filePath with
      | Some _ =>
        match negb (force g), confirmFunc g with
        | true, Some confirm =>
          let w' := {| files := files w;
                       prompts := (prompts w ++ [filePath])%list |} in
          if negb (confirm filePath) then (Some ErrSkipped, w')
          else write w'
        | _, _ => write w
        end
      | None => write w
      end
    end.

End Generator.

(** ** Package generator (first revision)

    The older [generator.go] kept next to the current one: no unsigned
    flag, no overwrite policy, and a second import for nullable
    timestamp columns.  Only the two functions that differ are
    embedded. *)

Module Early.
Section Generator.
Context {R : GoRuntime}.

Definition goType (dataType : string) : string :=
  if oneOf dataType ["tinyint"] then "int8"
  else if oneOf dataType ["smallint"] then "int16"
  else if oneOf dataType ["mediumint"; "int"; "integer"] then "int32"
  else if oneOf dataType ["bigint"] then "int64"
  else if oneOf dataType ["float"] then "float32"
  else if oneOf dataType ["double"; "real"] then "float64"
  else if oneOf dataType ["decimal"; "numeric"] then "float64"
  else if oneOf dataType ["char"; "varchar"; "text"; "tinytext";
                          "mediumtext"; "longtext"; "enum"; "set"] then "string"
  else if oneOf dataType ["binary"; "varbinary"; "blob"; "tinyblob";
                          "mediumblob"; "longblob"] then "[]byte"
  else if oneOf dataType ["datetime"; "timestamp"; "date"; "time"] then
    "time.Time"
  else if oneOf dataType ["year"] then "int16"
  else if oneOf dataType ["bit"] then "[]byte"
  else if oneOf dataType ["json"] then "string"
  else "string".

Definition mysqlTypeToGo (dataType : string) (nullable : bool) : string :=
  let goType := goType dataType in
  if nullable then
    if oneOf goType ["int8"; "int16"; "int32"; "int64"] then "*" +:+ goType
    else if oneOf goType ["float32"; "float64"] then "*" +:+ goType
    else if oneOf goType ["string"] then "*string"
    else if oneOf goType ["[]byte"] then "[]byte"
    else if oneOf goType ["time.Time"] then "*time.Time"
    else goType
  else goType.

Definition collectImports (table : Table) : list string :=
  let imports :=
    fold_left
      (fun (imports : gmap string bool) col =>
         let imports :=
           if oneOf (DataType col) ["datetime"; "timestamp"; "date"; "time"]
           then <["time" := true]> imports
           else imports in
         if IsNullable col then
           if oneOf (DataType col) ["datetime"; "timestamp"; "date"; "time"]
           then <["database/sql" := true]> imports
           else imports
         else imports)
      (Columns table) ∅ in
  fold_left (fun result imp => (result ++ [imp])%list) (mapKeys imports) [].

End Generator.
End Early.

(** ** The specification's side

    What follows is written after the words of the specification, to
    be compared with the embedding above. *)

(** The mapping table of the type mapper: raw type, base type when
    signed, base type when unsigned. *)
Definition typeTable : list (string * (string * string)) :=
  [ ("tinyint", ("int8", "uint8"));
    ("smallint", ("int16", "uint16"));
    ("mediumint", ("int32", "uint32"));
    ("int", ("int32", "uint32"));
    ("integer", ("int32", "uint32"));
    ("bigint", ("int64", "uint64"));
    ("float", ("float32", "float32"));
    ("double", ("float64", "float64"));
    ("real", ("float64", "float64"));
    ("decimal", ("float64", "float64"));
    ("numeric", ("float64", "float64"));
    ("char", ("string", "string"));
    ("varchar", ("string", "string"));
    ("text", ("string", "string"));
    ("tinytext", ("string", "string"));
    ("mediumtext", ("string", "string"));
    ("longtext", ("string", "string"));
    ("enum", ("string", "string"));
    ("set", ("string", "string"));
    ("json", ("string", "string"));
    ("binary", ("[]byte", "[]byte"));
    ("varbinary", ("[]byte", "[]byte"));
    ("blob", ("[]byte", "[]byte"));
    ("tinyblob", ("[]byte", "[]byte"));
    ("mediumblob", ("[]byte", "[]byte"));
    ("longblob", ("[]byte", "[]byte"));
    ("bit", ("[]byte", "[]byte"));
    ("datetime", ("time.Time", "time.Time"));
    ("timestamp", ("time.Time", "time.Time"));
    ("date", ("time.Time", "time.Time"));
    ("time", ("time.Time", "time.Time"));
    ("year", ("int16", "uint16")) ].

Definition recognized : list string := map fst typeTable.

Definition baseOf (row : string * (string * string)) (unsigned : bool) : string :=
  if unsigned then row.2.2 else row.2.1.

(** The raw types whose base type is the byte sequence. *)
Definition byteFamily : list string :=
  ["binary"; "varbinary"; "blob"; "tinyblob"; "mediumblob"; "longblob"; "bit"].

(** The scalar base types: integers, floats, string and timestamp. *)
Definition scalarTypes : list string :=
  ["int8"; "int16"; "int32"; "int64"; "uint8"; "uint16"; "uint32"; "uint64";
   "float32"; "float64"; "string"; "time.Time"].

(** The optional representation of a base type: a Go pointer. *)
Definition optional (base : string) : string := "*" +:+ base.

(** The nullability policy: scalars are wrapped when nullable, the byte
    sequence never is. *)
Definition withNullability (nullable : bool) (base : string) : string :=
  if nullable && negb (String.eqb base "[]byte") then optional base else base.

(** The runes of a string, in order, and the encoding of a rune list. *)
Definition runes (s : string) : list Z := map snd (stringRange s).

Fixpoint encodeRunes (rs : list Z) : string :=
  match rs with
  | [] => ""
  | r :: rs' => utf8.AppendRune r +:+ encodeRunes rs'
  end.

(** [utf8.ValidString]: no decoding step yields the error rune for an
    invalid byte. *)
Fixpoint validFrom (skip : nat) (s : string) : bool :=
  match s with
  | "" => true
  | String _ s' =>
    match skip with
    | S k => validFrom k s'
    | O =>
      let '(r, w) := utf8.DecodeRuneInString s in
      negb ((r =? utf8.RuneError)%Z && (w =? 1)%nat) && validFrom (w - 1) s'
    end
  end.

Definition ValidString (s : string) : bool := validFrom 0 s.

Section SpecCase.
Context {T : UnicodeTables}.

(** toFileCase, character by character: the first character is
    lowercased when it is uppercase; every later uppercase character is
    replaced by an underscore and its lowercase form; the others are
    kept. *)
Definition fileCaseFirst (r : Z) : list Z :=
  if unicode.IsUpper r then [unicode.ToLower r] else [r].

Definition fileCaseLater (r : Z) : list Z :=
  if unicode.IsUpper r then [0x5F%Z; unicode.ToLower r] else [r].

Definition toFileCase (rs : list Z) : list Z :=
  match rs with
  | [] => []
  | r :: rs' => fileCaseFirst r ++ flat_map fileCaseLater rs'
  end.

(** toFieldCase on one segment: the first byte in upper case as
    [strings.ToUpper] has it, the rest unchanged. *)
Definition capitalize (p : string) : string :=
  match p with
  | "" => ""
  | String c rest => strings.ToUpper (String c "") +:+ rest
  end.

Definition toFieldCase (s : string) : string :=
  String.concat "" (map capitalize (strings.Split s "_"%char)).

End SpecCase.

(** The emitter, as the specification describes its output: the
    annotation that keeps the original column name, one rendered field
    per column, the import block and the whole declaration. *)
Definition annotation (col : Column) : string :=
  "`db:" +:+ dquote +:+ Name col +:+ dquote +:+ "`".

Definition timestampFamily : list string :=
  ["datetime"; "timestamp"; "date"; "time"].

Definition importBlock (imports : list string) : string :=
  match imports with
  | [] => ""
  | _ :: _ =>
    "import (" +:+ nl
    +:+ String.concat "" (map (fun imp => tab +:+ dquote +:+ imp +:+ dquote +:+ nl)
                              imports)
    +:+ ")" +:+ nl +:+ nl
  end.

Section SpecEmit.
Context {T : UnicodeTables}.

Definition fieldLine (col : Column) : string :=
  tab +:+ toCamelCase (Name col) +:+ " "
  +:+ mysqlTypeToGo (DataType col) (IsNullable col) (IsUnsigned col)
  +:+ " " +:+ annotation col +:+ nl.

Definition declaration (pkg : string) (imports : list string)
           (table : Table) : string :=
  "package " +:+ pkg +:+ nl +:+ nl
  +:+ importBlock imports
  +:+ "type " +:+ toCamelCase (TableName table) +:+ " struct {" +:+ nl
  +:+ String.concat "" (map fieldLine (Columns table))
  +:+ "}" +:+ nl.

End SpecEmit.

(** File materialization: the target path is the output directory
    joined with the file-case table name and the extension. *)
Definition targetPath {T : UnicodeTables} {P : Platform}
           (g : Generator) (table : Table) : string :=
  filepath_Join (outputDir g) (toSnakeCase (TableName table) +:+ ".go").

(** ASCII strings and ASCII letters. *)
Definition isASCII (s : string) : bool :=
  strings.allBytes (fun c => (byteZ c <? 0x80)%Z) s.

Definition isUpperByte (c : ascii) : bool :=
  ((0x41 <=? byteZ c) && (byteZ c <=? 0x5A))%Z.

Definition lowerByte (c : ascii) : ascii :=
  if isUpperByte c then Zbyte (byteZ c + 32) else c.

(** toFieldCase and toFileCase read on ASCII bytes. *)
Definition capitalizeASCII (p : string) : string :=
  match p with
  | "" => ""
  | String c rest => String (strings.upperByte c) rest
  end.

Fixpoint snakeLater (s : string) : string :=
  match s with
  | "" => ""
  | String c s' =>
    if isUpperByte c then String "_" (String (lowerByte c) (snakeLater s'))
    else String c (snakeLater s')
  end.

Definition snakeASCII (s : string) : string :=
  match s with
  | "" => ""
  | String c s' => String (lowerByte c) (snakeLater s')
  end.

(** ** Concrete collaborators and inputs used by the examples *)

(** Tables with no entry beyond Latin-1: no rune there has a case. *)
Definition plainTables : UnicodeTables :=
  {| Upper_excludingLatin := fun _ => false;
     To_UpperCase := fun r => r;
     To_LowerCase := fun r => r |}.

(** Two runs of the runtime that visit the keys of a map in opposite
    orders. *)
Definition forwardRun : GoRuntime :=
  {| mapKeys := fun m => map fst (map_to_list m) |}.
Definition backwardRun : GoRuntime :=
  {| mapKeys := fun m => rev (map fst (map_to_list m)) |}.

(** A platform on which nothing fails and the formatter returns its
    input. *)
Definition quietPlatform : Platform :=
  {| MkdirAll_fails := fun _ _ => false;
     format_Source := fun code => Some code;
     filepath_Join := fun dir file => dir +:+ "/" +:+ file;
     WriteFile_fails := fun _ _ _ => None |}.

Definition column (name dataType : string) (nullable unsigned : bool) : Column :=
  {| Name := name; DataType := dataType; IsNullable := nullable;
     IsUnsigned := unsigned; ColumnKey := ""; Extra := ""; Comment := "" |}.

Definition user_accounts : Table :=
  {| TableName := "user_accounts";
     Columns := [ column "id" "bigint" false true;
                  column "username" "varchar" false false;
                  column "email" "varchar" true false;
                  column "created_at" "datetime" false false;
                  column "deleted_at" "datetime" true false ] |}.

Definition users : Table :=
  {| TableName := "users"; Columns := [ column "id" "int" false false ] |}.

Definition events : Table :=
  {| TableName := "events"; Columns := [ column "ended_at" "datetime" true false ] |}.

(** A world in which the target of [users] under [out] already exists
    and nobody has been prompted yet. *)
Definition existing : World :=
  {| files := {["out/users.go" := "existing content"]}; prompts := [] |}.

Definition decline : string -> bool := fun _ => false.
Definition accept : string -> bool := fun _ => true.

(** A platform whose formatter rejects every text. *)
Definition strictPlatform : Platform :=
  {| MkdirAll_fails := fun _ _ => false;
     format_Source := fun _ => None;
     filepath_Join := fun dir file => dir +:+ "/" +:+ file;
     WriteFile_fails := fun _ _ _ => None |}.

(** A world without files. *)
Definition blank : World := {| files := ∅; prompts := [] |}.

(** What the emitter writes for [user_accounts] after the package
    clause. *)
Definition user_accounts_go : string :=
  "import (" +:+ nl
  +:+ tab +:+ dquote +:+ "time" +:+ dquote +:+ nl
  +:+ ")" +:+ nl +:+ nl
  +:+ "type UserAccounts struct {" +:+ nl
  +:+ tab +:+ "Id uint64 `db:" +:+ dquote +:+ "id" +:+ dquote +:+ "`" +:+ nl
  +:+ tab +:+ "Username string `db:" +:+ dquote +:+ "username" +:+ dquote +:+ "`" +:+ nl
  +:+ tab +:+ "Email *string `db:" +:+ dquote +:+ "email" +:+ dquote +:+ "`" +:+ nl
  +:+ tab +:+ "CreatedAt time.Time `db:" +:+ dquote +:+ "created_at" +:+ dquote +:+ "`" +:+ nl
  +:+ tab +:+ "DeletedAt *time.Time `db:" +:+ dquote +:+ "deleted_at" +:+ dquote +:+ "`" +:+ nl
  +:+ "}" +:+ nl.

(** The column name [é], U+00E9, in UTF-8, and its capital [É], U+00C9. *)
Definition e_acute : string := String (Zbyte 0xC3) (String (Zbyte 0xA9) "").
Definition E_acute : string := String (Zbyte 0xC3) (String (Zbyte 0x89) "").

(** ** Further definitions: identifiers and the type families *)

(** [toCamelCase] read as one scan over ASCII bytes: underscores are
    dropped and the byte after the start or after an underscore is put
    in upper case. *)
Fixpoint camelScan (start : bool) (s : string) : string :=
  match s with
  | "" => ""
  | String c s' =>
    if Ascii.eqb c "_"%char then camelScan true s'
    else String (if start then strings.upperByte c else c) (camelScan false s')
  end.

Definition isPlainByte (c : ascii) : bool :=
  (byteZ c <? 0x80)%Z && negb (isUpperByte c) && negb (Ascii.eqb c "_"%char).

(** A snake-case name: ASCII segments separated by single underscores,
    none empty, each starting with a lowercase letter and holding no
    uppercase letter.  [start] tells that a segment begins here. *)
Fixpoint isSnakeFrom (start : bool) (s : string) : bool :=
  match s with
  | "" => negb start
  | String c s' =>
    if Ascii.eqb c "_"%char then negb start && isSnakeFrom true s'
    else (if start then strings.isLowerByte c else isPlainByte c)
         && isSnakeFrom false s'
  end.

Definition isSnakeName (s : string) : bool := isSnakeFrom true s.

(** A Pascal-case name: ASCII without underscore whose first byte is
    not a lowercase letter. *)
Definition isPascalName (s : string) : bool :=
  strings.allBytes
    (fun c => (byteZ c <? 0x80)%Z && negb (Ascii.eqb c "_"%char)) s
  && match s with
     | "" => true
     | String c _ => negb (strings.isLowerByte c)
     end.

(** The raw types on which [mysqlTypeToGo] looks at the unsigned flag. *)
Definition integerFamily : list string :=
  ["tinyint"; "smallint"; "mediumint"; "int"; "integer"; "bigint"; "year"].

(** The options [New] can be given from outside the package. *)
Inductive Setting : Type :=
| SetForce (force : bool)
| SetConfirm (fn : string -> bool).

Definition optionOf (o : Setting) : Option :=
  match o with
  | SetForce f => WithForce f
  | SetConfirm fn => WithConfirmFunc fn
  end.

Fixpoint lastForce (os : list Setting) (default : bool) : bool :=
  match os with
  | [] => default
  | SetForce f :: os' => lastForce os' f
  | SetConfirm _ :: os' => lastForce os' default
  end.

Fixpoint lastConfirm (os : list Setting) (default : option (string -> bool))
  : option (string -> bool) :=
  match os with
  | [] => default
  | SetForce _ :: os' => lastConfirm os' default
  | SetConfirm fn :: os' => lastConfirm os' (Some fn)
  end.

Definition present {A : Type} (o : option A) : bool :=
  match o with
  | Some _ => true
  | None => false
  end.

(** A conditional [imports[k] = true]. *)
Definition addIf (b : bool) (k : string) (m : gmap string bool)
  : gmap string bool := if b then <[k := true]> m else m.

(** The columns for which the first revision asks for [time], and those
    for which it asks for [database/sql]. *)
Definition isTimestamp (col : Column) : bool :=
  oneOf (DataType col) timestampFamily.
Definition isNullableTimestamp (col : Column) : bool :=
  IsNullable col && oneOf (DataType col) timestampFamily.

(** ** Package generator (first revision), the rest

    [generateStruct] and [Generate] of the older [generator.go]: the
    same text, built from the older mapper and import collection, and
    written without looking whether the file exists. *)

Module EarlyRun.

Record Generator : Type := {
  packageName : string;
  outputDir : string
}.

Definition New (pkg dir : string) : Generator :=
  {| packageName := pkg; outputDir := dir |}.

Section Generator.
Context {T : UnicodeTables} {R : GoRuntime} {P : Platform}.

Definition writeField (buf : string) (col : Column) : string :=
  let fieldName := toCamelCase (Name col) in
  let fieldType := Early.mysqlTypeToGo (DataType col) (IsNullable col) in
  let tag := "`db:" +:+ dquote +:+ Name col +:+ dquote +:+ "`" in
  strings.WriteString buf
    (tab +:+ fieldName +:+ " " +:+ fieldType +:+ " " +:+ tag +:+ nl).

Definition generateStruct (g : Generator) (table : Table) : string :=
  let buf := strings.WriteString "" ("package " +:+ packageName g +:+ nl +:+ nl) in
  let imports := Early.collectImports table in
  let buf :=
    if (0 <? length imports)%nat then
      let buf := strings.WriteString buf ("import (" +:+ nl) in
      let buf :=
        fold_left
          (fun buf imp => strings.WriteString buf (tab +:+ quoted imp +:+ nl))
          imports buf in
      strings.WriteString buf (")" +:+ nl +:+ nl)
    else buf in
  let structName := toCamelCase (TableName table) in
  let buf := strings.WriteString buf ("type " +:+ structName +:+ " struct {" +:+ nl) in
  let buf := fold_left writeField (Columns table) buf in
  strings.WriteString buf ("}" +:+ nl).

Definition Generate (g : Generator) (table : Table) (w : World)
  : option error * World :=
  if MkdirAll_fails (outputDir g) (files w) then (Some ErrCreateDir, w)
  else
    let code := generateStruct g table in
    match format_Source code with
    | None => (Some (ErrFormat code), w)
    | Some formatted =>
      let filename := toSnakeCase (TableName table) +:+ ".go" in
      let filepath := filepath_Join (outputDir g) filename in
      match WriteFile_fails filepath formatted (files w) with
      | Some fs => (Some ErrWriteFile, {| files := fs; prompts := prompts w |})
      | None =>
        (None, {| files := <[filepath := formatted]> (files w);
                  prompts := prompts w |})
      end
    end.

End Generator.
End EarlyRun.

(** ** Package strings, the functions of [confirmOverwrite]

    [strings.ToLower] and [strings.TrimSpace] with their ASCII paths
    written out.  When [TrimSpace] meets a byte that is not ASCII it
    hands over to [TrimFunc] or [TrimRightFunc] with [unicode.IsSpace];
    those two are taken as parameters. *)

Class TrimFallback : Type := {
  TrimFunc_IsSpace : string -> string;
  TrimRightFunc_IsSpace : string -> string
}.

(** The entries of [asciiSpace]: tab, newline, vertical tab, form feed,
    carriage return, space. *)
Definition asciiSpace (c : ascii) : bool :=
  let b := byteZ c in
  ((9 <=? b) && (b <=? 13) || (b =? 32))%Z.

Section Trim.
Context {T : UnicodeTables} {F : TrimFallback}.

Definition strings_ToLower (s : string) : string :=
  if strings.allBytes (fun c => (byteZ c <? utf8.RuneSelf)%Z) s then
    (if strings.anyByte isUpperByte s then strings.mapBytes lowerByte s else s)
  else strings.Map unicode.ToLower s.

(** First loop of [TrimSpace]: [inl rest] when it stops with [start] at
    the head of [rest], [inr rest] when the byte at the head of [rest]
    is not ASCII. *)
Fixpoint trimStart (s : string) : string + string :=
  match s with
  | "" => inl ""
  | String c s' =>
    if (utf8.RuneSelf <=? byteZ c)%Z then inr s
    else if asciiSpace c then trimStart s'
    else inl s
  end.

(** Second loop of [TrimSpace], on [s[start:]]: the bytes up to [stop],
    and whether the loop left through the byte that is not ASCII. *)
Fixpoint trimStop (t : string) : bool * string :=
  match t with
  | "" => (false, "")
  | String c t' =>
    match trimStop t' with
    | (_, "") =>
      if (utf8.RuneSelf <=? byteZ c)%Z then (true, String c "")
      else if asciiSpace c then (false, "")
      else (false, String c "")
    | (fallback, kept) => (fallback, String c kept)
    end
  end.

Definition strings_TrimSpace (s : string) : string :=
  match trimStart s with
  | inr rest => TrimFunc_IsSpace rest
  | inl rest =>
    match trimStop rest with
    | (true, kept) => TrimRightFunc_IsSpace kept
    | (false, kept) => kept
    end
  end.

(** [confirmOverwrite], from the line [ReadString] returned. *)
Definition confirmOverwrite (input : string) : bool :=
  let input := strings_TrimSpace (strings_ToLower input) in
  String.eqb input "y" || String.eqb input "yes".

End Trim.

(** ** Package schema: the reader

    [*sql.Rows] is the list of what each [Next]/[Scan] step yields and
    the final [rows.Err()]; [db.Query] may fail before. *)

Inductive Fetch (A : Type) : Type :=
| Got (a : A)
| ScanFails.
Arguments Got {A} a.
Arguments ScanFails {A}.

Record Rows (A : Type) : Type := {
  fetched : list (Fetch A);
  rowsErr : bool
}.
Arguments fetched {A} r.
Arguments rowsErr {A} r.

Record Row : Type := {
  COLUMN_NAME : string;
  DATA_TYPE : string;
  IS_NULLABLE : string;
  COLUMN_KEY : string;
  EXTRA : string;
  COLUMN_COMMENT : string
}.

Class Database : Type := {
  (** [sql.Open] and [db.Ping] on a DSN: [true] when one fails *)
  NewReader_fails : string -> bool;
  (** the query of [GetTables]; [None] when [db.Query] fails *)
  QueryTables : string -> option (Rows string);
  (** the query of [GetTableSchema] *)
  QueryColumns : string -> string -> option (Rows Row)
}.

Inductive readError : Type :=
| ErrQuery
| ErrScan
| ErrRows.

(** The body of the loop of [GetTableSchema].  The [Column] of this
    revision of the reader has no [IsUnsigned]; it is left at its zero
    value. *)
Definition scanColumn (r : Row) : Column :=
  {| Name := COLUMN_NAME r; DataType := DATA_TYPE r;
     IsNullable := String.eqb (IS_NULLABLE r) "YES";
     IsUnsigned := false;
     ColumnKey := COLUMN_KEY r; Extra := EXTRA r;
     Comment := COLUMN_COMMENT r |}.

Fixpoint scanLoop {A B : Type} (scan : A -> B) (rows : list (Fetch A))
         (acc : list B) : option (list B) :=
  match rows with
  | [] => Some acc
  | Got a :: rows' => scanLoop scan rows' (acc ++ [scan a])%list
  | ScanFails :: _ => None
  end.

Section Reader.
Context {D : Database}.

Definition GetTables (database : string) : option (list string) * option readError :=
  match QueryTables database with
  | None => (None, Some ErrQuery)
  | Some rows =>
    match scanLoop (fun name => name) (fetched rows) [] with
    | None => (None, Some ErrScan)
    | Some tables => (Some tables, if rowsErr rows then Some ErrRows else None)
    end
  end.

Definition GetTableSchema (database tableName : string)
  : option Table * option readError :=
  match QueryColumns database tableName with
  | None => (None, Some ErrQuery)
  | Some rows =>
    match scanLoop scanColumn (fetched rows) [] with
    | None => (None, Some ErrScan)
    | Some columns =>
      (Some {| TableName := tableName; Columns := columns |},
       if rowsErr rows then Some ErrRows else None)
    end
  end.

End Reader.

(** ** Package main (the revision with the force flag)

    Flag parsing is the [flag] package's; [main] is embedded from the
    parsed flags on.  What it prints is kept as events, one per
    [Printf], in program order: the text of an error comes from the
    operating system or the driver.  [stdinLine asked] is the line the
    terminal hands to [ReadString] when the paths in [asked] have been
    asked about before. *)

Record Flags : Type := {
  host : string;
  port : Z;
  user : string;
  password : string;
  database : string;
  table : string;
  output : string;
  forceFlag : bool
}.

Class Terminal : Type := {
  filepath_Base : string -> string;
  stdinLine : list string -> string
}.

Inductive Event : Type :=
| EDbRequired
| EOutputRequired
| EUsage
| EConnect
| EGetTables
| ESchema (tableName : string)
| EGenerate (tableName : string) (err : error)
| OSkipped (tableName : string)
| OGenerated (tableName : string)
| ODone.

Section Main.
Context {T : UnicodeTables} {R : GoRuntime} {P : Platform}
        {F : TrimFallback} {D : Database} {U : Terminal}.

Definition dsnOf (f : Flags) : string :=
  user f +:+ ":" +:+ password f +:+ "@tcp(" +:+ host f +:+ ":"
  +:+ NilZero.string_of_int (Z.to_int (port f)) +:+ ")/" +:+ database f
  +:+ "?parseTime=true".

(** [gen], as it answers in world [w]: the callback reads the next
    line of the terminal. *)
Definition genOf (f : Flags) (w : World) : Generator :=
  New (filepath_Base (output f)) (output f)
      [ WithForce (forceFlag f);
        WithConfirmFunc (fun _ => confirmOverwrite (stdinLine (prompts w))) ].

(** One iteration of the loop over the tables. *)
Definition processTable (f : Flags) (tableName : string) (w : World)
  : list Event * World :=
  match GetTableSchema (database f) tableName with
  | (_, Some _) => ([ESchema tableName], w)
  | (None, None) => ([], w)
  | (Some tableSchema, None) =>
    match Generate (genOf f w) tableSchema w with
    | (Some ErrSkipped, w') => ([OSkipped tableName], w')
    | (Some err, w') => ([EGenerate tableName err], w')
    | (None, w') => ([OGenerated tableName], w')
    end
  end.

Definition processTables (f : Flags) (tables : list string) (w : World)
  : list Event * World :=
  fold_left
    (fun (st : list Event * World) tableName =>
       let '(events, w') := processTable f tableName st.2 in
       ((st.1 ++ events)%list, w'))
    tables ([], w).

(** [main]: the exit status, the events and the world it leaves. *)
Definition main (f : Flags) (w : World) : Z * list Event * World :=
  if String.eqb (database f) "" then (1%Z, [EDbRequired; EUsage], w)
  else if String.eqb (output f) "" then (1%Z, [EOutputRequired; EUsage], w)
  else if NewReader_fails (dsnOf f) then (1%Z, [EConnect], w)
  else
    let listed :=
      if negb (String.eqb (table f) "") then (Some [table f], None)
      else GetTables (database f) in
    match listed with
    | (_, Some _) => (1%Z, [EGetTables], w)
    | (tables, None) =>
      let '(events, w') := processTables f (default [] tables) w in
      (0%Z, (events ++ [ODone])%list, w')
    end.

End Main.

(** The table an event of the loop is about. *)
Definition eventTable (e : Event) : option string :=
  match e with
  | ESchema t | EGenerate t _ | OSkipped t | OGenerated t => Some t
  | _ => None
  end.

(** ** Concrete collaborators for the reader and [main] *)

Definition noFallback : TrimFallback :=
  {| TrimFunc_IsSpace := fun s => s; TrimRightFunc_IsSpace := fun s => s |}.

Definition idRow : Row :=
  {| COLUMN_NAME := "id"; DATA_TYPE := "int"; IS_NULLABLE := "NO";
     COLUMN_KEY := "PRI"; EXTRA := "auto_increment"; COLUMN_COMMENT := "" |}.

Definition noteRow : Row :=
  {| COLUMN_NAME := "note"; DATA_TYPE := "text"; IS_NULLABLE := "YES";
     COLUMN_KEY := ""; EXTRA := ""; COLUMN_COMMENT := "" |}.

(** A server with the table [notes]; the columns of a table it does not
    know are no rows at all; the row of [broken] does not scan. *)
Definition sampleServer : Database :=
  {| NewReader_fails := fun _ => false;
     QueryTables := fun _ =>
       Some {| fetched := [Got "notes"; Got "broken"]; rowsErr := false |};
     QueryColumns := fun _ tableName =>
       if String.eqb tableName "notes"
       then Some {| fetched := [Got idRow; Got noteRow]; rowsErr := false |}
       else if String.eqb tableName "broken"
       then Some {| fetched := [Got idRow; ScanFails]; rowsErr := false |}
       else Some {| fetched := []; rowsErr := false |} |}.

(** A terminal at which every question is answered with [n]. *)
Definition sayNo : Terminal :=
  {| filepath_Base := fun _ => "models";
     stdinLine := fun _ => "n" +:+ nl |}.

Definition flagsFor (tableName : string) : Flags :=
  {| host := "localhost"; port := 3306; user := "root"; password := "";
     database := "app"; table := tableName; output := "models";
     forceFlag := false |}.

(** ** The command line

    [main] parses with the flag package's own flag set, whose error
    handling is [flag.ExitOnError]: an argument that does not parse ends
    the process with status 2, and [-h] or [-help] ends it with status
    0, each after [flag.Usage], which is [printUsage] here, has run and
    before anything else of [main] does; the line the flag package
    prints about the argument is its own and no event.  Otherwise the
    flags are set and [main] goes on. *)
Inductive CommandLine : Type :=
| BadFlag
| HelpFlag
| Parsed (f : Flags).

(** The process from [flag.Parse] on. *)
Definition run {T : UnicodeTables} {R : GoRuntime} {P : Platform}
           {F : TrimFallback} {D : Database} {U : Terminal}
           (args : CommandLine) (w : World) : Z * list Event * World :=
  match args with
  | BadFlag => (2%Z, [EUsage], w)
  | HelpFlag => (0%Z, [EUsage], w)
  | Parsed f => main f w
  end.

(** The flags with which [main] ends in [os.Exit(1)]. *)
Definition fatal {D : Database} (f : Flags) : bool :=
  String.eqb (database f) "" || String.eqb (output f) ""
  || NewReader_fails (dsnOf f)
  || (String.eqb (table f) "" && present (GetTables (database f)).2).

(** ** Identifiers of Go made of ASCII characters

    An identifier is a letter followed by letters and digits, the
    underscore counting as a letter; it is exported when its first
    character is an uppercase letter. *)
Definition isDigitByte (c : ascii) : bool :=
  ((0x30 <=? byteZ c) && (byteZ c <=? 0x39))%Z.

Definition isWordByte (c : ascii) : bool :=
  strings.isLowerByte c || isUpperByte c || isDigitByte c
  || Ascii.eqb c "_"%char.

Definition isExported (s : string) : bool :=
  match s with
  | "" => false
  | String c rest => isUpperByte c && strings.allBytes isWordByte rest
  end.

(** * Properties *)

(** ** The type mapper *)

Lemma oneOf_true (x : string) (cases : list string) :
  oneOf x cases = true <-> In x cases.
Proof.
  unfold oneOf. rewrite existsb_exists. split.
  - intros (y & Hy & Heq). apply String.eqb_eq in Heq. now subst.
  - intros H. exists x. split; [exact H | apply String.eqb_refl].
Qed.

Lemma oneOf_false (x : string) (cases : list string) :
  oneOf x cases = false <-> ~ In x cases.
Proof.
  rewrite <- oneOf_true. destruct (oneOf x cases); split; congruence.
Qed.

(** The [switch] of [goType] falls to its default on every name outside
    the table. *)
Lemma goType_default (dataType : string) (unsigned : bool) :
  ~ In dataType recognized -> goType dataType unsigned = "string".
Proof.
  intros Hout. unfold goType.
  repeat match goal with
  | |- context [oneOf dataType ?cs] =>
    let E := fresh "E" in
    destruct (oneOf dataType cs) eqn:E;
    [ exfalso; apply oneOf_true in E; apply Hout;
      unfold recognized; simpl in E |- *; tauto | ]
  end.
  reflexivity.
Qed.

(** Every value [goType] can take. *)
Lemma goType_range (dataType : string) (unsigned : bool) :
  In (goType dataType unsigned) ("[]byte" :: scalarTypes).
Proof.
  unfold goType.
  repeat match goal with
  | |- context [oneOf dataType ?cs] => destruct (oneOf dataType cs)
  end; destruct unsigned; simpl; tauto.
Qed.

Lemma goType_bytes (dataType : string) (unsigned : bool) :
  goType dataType unsigned = "[]byte" <-> In dataType byteFamily.
Proof.
  split.
  - unfold goType, byteFamily.
    repeat match goal with
    | |- context [oneOf dataType ?cs] =>
      let E := fresh "E" in
      destruct (oneOf dataType cs) eqn:E;
      [ try (destruct unsigned; discriminate);
        try (intros _; apply oneOf_true in E; simpl in E |- *; tauto) | ]
    end.
    discriminate.
  - intros H. unfold byteFamily in H. simpl in H.
    repeat (destruct H as [<- | H]; [reflexivity | ]). contradiction.
Qed.

Lemma mysqlTypeToGo_not_nullable (dataType : string) (unsigned : bool) :
  mysqlTypeToGo dataType false unsigned = goType dataType unsigned.
Proof. reflexivity. Qed.

(** The second [switch] of [mysqlTypeToGo] has a case for every value
    the first one produces. *)
Lemma mysqlTypeToGo_nullable (dataType : string) (unsigned : bool) :
  mysqlTypeToGo dataType true unsigned =
  withNullability true (goType dataType unsigned).
Proof.
  unfold mysqlTypeToGo.
  pose proof (goType_range dataType unsigned) as Hr.
  simpl in Hr.
  repeat (destruct Hr as [<- | Hr]; [reflexivity | ]). contradiction.
Qed.

(** C1.  On every row of the mapping table, for both values of the
    unsigned flag and both nullability states, [mysqlTypeToGo] returns
    the base type of the row, wrapped by the nullability policy; on a
    raw type outside the table it returns [string] (a value, not an
    error), again wrapped by the policy. *)
Theorem mysqlTypeToGo_table :
  Forall (fun row => forall nullable unsigned : bool,
            goType row.1 unsigned = baseOf row unsigned /\
            mysqlTypeToGo row.1 nullable unsigned =
              withNullability nullable (baseOf row unsigned))
         typeTable
  /\ (forall dataType : string, ~ In dataType recognized ->
      forall nullable unsigned : bool,
        mysqlTypeToGo dataType nullable unsigned =
          withNullability nullable "string").
Proof.
  split.
  - unfold typeTable.
    repeat (constructor; [intros [] []; split; reflexivity | ]).
    constructor.
  - intros dataType Hout nullable unsigned.
    destruct nullable.
    + rewrite mysqlTypeToGo_nullable. now rewrite goType_default.
    + rewrite mysqlTypeToGo_not_nullable. now rewrite goType_default.
Qed.

Lemma mysqlTypeToGo_table_witness :
  ~ In "unknown_type" recognized /\
  mysqlTypeToGo "unknown_type" true false = "*string" /\
  mysqlTypeToGo "unknown_type" false true = "string".
Proof.
  assert (Hout : ~ In "unknown_type" recognized).
  { unfold recognized. simpl. intuition discriminate. }
  split; [exact Hout | ].
  destruct mysqlTypeToGo_table as [_ Hdefault].
  split; [exact (Hdefault "unknown_type" Hout true false)
         | exact (Hdefault "unknown_type" Hout false true)].
Defined.

(** C2.  For every raw type: without the nullable flag the result is the
    bare base type; with it, a raw type of the byte-sequence family
    still gives the unwrapped byte sequence, and every other raw type
    gives the pointer to its base type, which is an integer, a float,
    [string] or [time.Time]. *)
Theorem mysqlTypeToGo_nullability (dataType : string) (unsigned : bool) :
  mysqlTypeToGo dataType false unsigned = goType dataType unsigned
  /\ In (mysqlTypeToGo dataType false unsigned) ("[]byte" :: scalarTypes)
  /\ (In dataType byteFamily ->
      mysqlTypeToGo dataType true unsigned = "[]byte" /\
      mysqlTypeToGo dataType false unsigned = "[]byte")
  /\ (~ In dataType byteFamily ->
      In (goType dataType unsigned) scalarTypes /\
      mysqlTypeToGo dataType true unsigned =
        optional (goType dataType unsigned)).
Proof.
  split; [reflexivity | ].
  split; [rewrite mysqlTypeToGo_not_nullable; apply goType_range | ].
  split.
  - intros Hb. apply (goType_bytes dataType unsigned) in Hb.
    rewrite mysqlTypeToGo_nullable, mysqlTypeToGo_not_nullable, Hb.
    split; reflexivity.
  - intros Hn.
    assert (Hne : goType dataType unsigned <> "[]byte").
    { intros E. apply Hn. now apply (goType_bytes dataType unsigned). }
    pose proof (goType_range dataType unsigned) as Hr.
    destruct Hr as [E | Hr]; [congruence | ].
    split; [exact Hr | ].
    rewrite mysqlTypeToGo_nullable. unfold withNullability.
    apply String.eqb_neq in Hne. now rewrite Hne.
Qed.

Lemma mysqlTypeToGo_nullability_witness :
  (mysqlTypeToGo "blob" true false = "[]byte" /\
   mysqlTypeToGo "blob" false false = "[]byte")
  /\ (In (goType "bigint" true) scalarTypes /\
      mysqlTypeToGo "bigint" true true = "*uint64").
Proof.
  split.
  - apply (mysqlTypeToGo_nullability "blob" false).
    unfold byteFamily. simpl. tauto.
  - apply (mysqlTypeToGo_nullability "bigint" true).
    unfold byteFamily. simpl. intuition discriminate.
Defined.

(** The first revision has no unsigned flag: it is the current mapper at
    [unsigned = false]. *)
Lemma Early_mysqlTypeToGo_signed (dataType : string) (nullable : bool) :
  Early.mysqlTypeToGo dataType nullable = mysqlTypeToGo dataType nullable false.
Proof.
  unfold Early.mysqlTypeToGo, mysqlTypeToGo.
  replace (Early.goType dataType) with (goType dataType false) by reflexivity.
  destruct nullable; [ | reflexivity].
  pose proof (goType_range dataType false) as Hr. simpl in Hr.
  assert (Hs : In (goType dataType false)
                 ["[]byte"; "int8"; "int16"; "int32"; "int64";
                  "float32"; "float64"; "string"; "time.Time"]).
  { unfold goType.
    repeat match goal with
    | |- context [oneOf dataType ?cs] => destruct (oneOf dataType cs)
    end; simpl; tauto. }
  simpl in Hs.
  repeat (destruct Hs as [<- | Hs]; [reflexivity | ]). contradiction.
Qed.

(** ** Strings as byte sequences *)

#[local] Arguments String.append !s1 s2 : simpl nomatch.

Lemma append_nil_r (s : string) : s +:+ "" = s.
Proof. induction s as [ | c s IH]; simpl; [reflexivity | now rewrite IH]. Qed.

Lemma append_nil_l (s : string) : "" +:+ s = s.
Proof. reflexivity. Qed.

Lemma append_assoc (s1 s2 s3 : string) :
  (s1 +:+ s2) +:+ s3 = s1 +:+ (s2 +:+ s3).
Proof. induction s1 as [ | c s1 IH]; simpl; [reflexivity | now rewrite IH]. Qed.

Lemma substring_all (s : string) : substring 0 (String.length s) s = s.
Proof. induction s as [ | c s IH]; simpl; [reflexivity | now rewrite IH]. Qed.

Lemma substring_none (s : string) : substring 0 0 s = "".
Proof. destruct s; reflexivity. Qed.

Lemma sliceTo_first (c : ascii) (rest : string) :
  sliceTo (String c rest) 1 = String c "".
Proof. unfold sliceTo. simpl. now rewrite substring_none. Qed.

Lemma sliceFrom_first (c : ascii) (rest : string) :
  sliceFrom (String c rest) 1 = rest.
Proof.
  unfold sliceFrom. simpl. rewrite Nat.sub_0_r. apply substring_all.
Qed.

Lemma sliceFrom_zero (s : string) : sliceFrom s 0 = s.
Proof. unfold sliceFrom. rewrite Nat.sub_0_r. apply substring_all. Qed.

Lemma byteZ_range (c : ascii) : (0 <= byteZ c < 256)%Z.
Proof.
  unfold byteZ. pose proof (N_ascii_bounded c). lia.
Qed.

Lemma Zbyte_byteZ (c : ascii) : Zbyte (byteZ c) = c.
Proof.
  unfold Zbyte. rewrite Z.mod_small by apply byteZ_range.
  unfold byteZ. rewrite N2Z.id. apply ascii_N_embedding.
Qed.

Lemma byteZ_Zbyte (z : Z) : (0 <= z < 256)%Z -> byteZ (Zbyte z) = z.
Proof.
  intros Hz. unfold Zbyte, byteZ. rewrite Z.mod_small by exact Hz.
  rewrite N_ascii_embedding by lia. lia.
Qed.

Lemma encodeRunes_app (rs1 rs2 : list Z) :
  encodeRunes (rs1 ++ rs2) = encodeRunes rs1 +:+ encodeRunes rs2.
Proof.
  induction rs1 as [ | r rs1 IH]; simpl; [reflexivity | ].
  now rewrite IH, append_assoc.
Qed.

(** ** The range loop *)

(** Offsets only grow: after the first byte the loop never yields
    offset 0 again. *)
Lemma rangeFrom_offsets (s : string) :
  forall skip i, Forall (fun e => i <= e.1) (rangeFrom skip i s).
Proof.
  induction s as [ | c s IH]; intros skip i; cbn [rangeFrom]; [constructor | ].
  destruct skip as [ | k].
  - destruct (utf8.DecodeRuneInString (String c s)) as [r w].
    constructor; [simpl; lia | ].
    eapply Forall_impl; [apply (IH (w - 1) (S i)) | ].
    intros e He. simpl in He. lia.
  - eapply Forall_impl; [apply (IH k (S i)) | ].
    intros e He. simpl in He. lia.
Qed.

Lemma rangeFrom_ascii (s : string) :
  isASCII s = true ->
  forall i, map snd (rangeFrom 0 i s) = map byteZ (list_ascii_of_string s).
Proof.
  induction s as [ | c s IH]; intros Hs i; [reflexivity | ].
  unfold isASCII in Hs. simpl in Hs. apply andb_true_iff in Hs as [Hc Hs].
  cbn [rangeFrom utf8.DecodeRuneInString].
  unfold utf8.first. rewrite Hc. cbn [Nat.sub map snd list_ascii_of_string].
  f_equal. apply IH. exact Hs.
Qed.

(** ** toSnakeCase *)

Section SnakeCase.
Context {T : UnicodeTables}.

(** Past the first character the loop appends the later-character
    rendering of each rune. *)
Lemma toSnakeCase_later (l : list (nat * Z)) :
  Forall (fun e => 0 < e.1) l ->
  forall acc : string,
    fold_left
      (fun (result : strings.Builder) '(i, r) =>
         if unicode.IsUpper r then
           let result :=
             if (0 <? i)%nat then strings.WriteRune result 0x5F else result in
           strings.WriteRune result (unicode.ToLower r)
         else strings.WriteRune result r)
      l acc
    = acc +:+ encodeRunes (flat_map fileCaseLater (map snd l)).
Proof.
  induction 1 as [ | [i r] l Hi _ IH]; intros acc; cbn [fold_left map flat_map].
  - simpl. now rewrite append_nil_r.
  - rewrite IH. cbn [snd]. rewrite encodeRunes_app, <- append_assoc. f_equal.
    simpl in Hi. apply Nat.ltb_lt in Hi. rewrite Hi.
    unfold fileCaseLater, strings.WriteRune.
    destruct (unicode.IsUpper r); simpl;
      now rewrite ?append_nil_r, ?append_assoc.
Qed.

(** The loop of [toSnakeCase] computes the character-by-character
    description, on every byte string. *)
Lemma toSnakeCase_runes (s : string) :
  toSnakeCase s = encodeRunes (toFileCase (runes s)).
Proof.
  unfold toSnakeCase, runes, stringRange.
  destruct s as [ | c s]; [reflexivity | ].
  cbn [rangeFrom].
  destruct (utf8.DecodeRuneInString (String c s)) as [r w].
  cbn [fold_left map snd toFileCase].
  rewrite toSnakeCase_later.
  - rewrite encodeRunes_app. f_equal.
    unfold fileCaseFirst, strings.WriteRune.
    destruct (unicode.IsUpper r); simpl; now rewrite append_nil_r.
  - eapply Forall_impl; [apply (rangeFrom_offsets s (w - 1) 1) | ].
    intros e He. simpl in He. lia.
Qed.

Lemma IsUpper_byte (c : ascii) :
  (byteZ c <? 0x80)%Z = true -> unicode.IsUpper (byteZ c) = isUpperByte c.
Proof.
  intros Hc. apply Z.ltb_lt in Hc. pose proof (byteZ_range c) as Hr.
  unfold unicode.IsUpper, unicode.MaxLatin1, unicode.latin1Upper, isUpperByte.
  rewrite (Z.mod_small (byteZ c) (2 ^ 32)) by lia.
  rewrite (Z.mod_small (byteZ c) 256) by lia.
  replace (byteZ c <=? 255)%Z with true by (symmetry; apply Z.leb_le; lia).
  replace (192 <=? byteZ c)%Z with false by (symmetry; apply Z.leb_gt; lia).
  replace (216 <=? byteZ c)%Z with false by (symmetry; apply Z.leb_gt; lia).
  simpl. now rewrite !orb_false_r.
Qed.

Lemma AppendRune_byte (c : ascii) :
  (byteZ c <? 0x80)%Z = true -> utf8.AppendRune (byteZ c) = String c "".
Proof.
  intros Hc. apply Z.ltb_lt in Hc. pose proof (byteZ_range c) as Hr.
  unfold utf8.AppendRune, utf8.rune1Max.
  rewrite (Z.mod_small (byteZ c) (2 ^ 32)) by lia.
  replace (byteZ c <=? 127)%Z with true by (symmetry; apply Z.leb_le; lia).
  now rewrite Zbyte_byteZ.
Qed.

Lemma ToLower_byte (c : ascii) :
  isUpperByte c = true ->
  utf8.AppendRune (unicode.ToLower (byteZ c)) = String (lowerByte c) "".
Proof.
  intros Hu. unfold lowerByte. rewrite Hu.
  unfold isUpperByte in Hu. apply andb_true_iff in Hu as [H1 H2].
  unfold unicode.ToLower, unicode.MaxASCII. rewrite H1, H2.
  apply Z.leb_le in H1, H2.
  replace (byteZ c <=? 127)%Z with true by (symmetry; apply Z.leb_le; lia).
  simpl. unfold utf8.AppendRune, utf8.rune1Max.
  rewrite (Z.mod_small (byteZ c + 32) (2 ^ 32)) by lia.
  now replace (byteZ c + 32 <=? 127)%Z with true
    by (symmetry; apply Z.leb_le; lia).
Qed.

Lemma fileCaseLater_bytes (l : list ascii) :
  forallb (fun c => (byteZ c <? 0x80)%Z) l = true ->
  encodeRunes (flat_map fileCaseLater (map byteZ l))
  = snakeLater (string_of_list_ascii l).
Proof.
  induction l as [ | c l IH]; intros Hl; [reflexivity | ].
  simpl in Hl. apply andb_true_iff in Hl as [Hc Hl].
  cbn [map flat_map string_of_list_ascii snakeLater].
  rewrite encodeRunes_app, (IH Hl).
  unfold fileCaseLater. rewrite (IsUpper_byte c Hc).
  destruct (isUpperByte c) eqn:Hu; cbn [encodeRunes].
  - rewrite (ToLower_byte c Hu). reflexivity.
  - rewrite (AppendRune_byte c Hc). reflexivity.
Qed.

Lemma isASCII_forallb (s : string) :
  isASCII s = forallb (fun c => (byteZ c <? 0x80)%Z) (list_ascii_of_string s).
Proof.
  unfold isASCII. induction s as [ | c s IH]; simpl; [reflexivity | ].
  now rewrite IH.
Qed.

(** On ASCII input characters are bytes, and [toSnakeCase] is the
    byte-level conversion. *)
Lemma toSnakeCase_ascii (s : string) :
  isASCII s = true -> toSnakeCase s = snakeASCII s.
Proof.
  intros Hs. rewrite toSnakeCase_runes. unfold runes, stringRange.
  rewrite (rangeFrom_ascii s Hs 0).
  rewrite isASCII_forallb in Hs.
  rewrite <- (string_of_list_ascii_of_string s) at 2.
  destruct (list_ascii_of_string s) as [ | c l]; [reflexivity | ].
  simpl in Hs. apply andb_true_iff in Hs as [Hc Hl].
  cbn [map toFileCase string_of_list_ascii snakeASCII].
  rewrite encodeRunes_app, (fileCaseLater_bytes l Hl).
  unfold fileCaseFirst. rewrite (IsUpper_byte c Hc).
  destruct (isUpperByte c) eqn:Hu; cbn [encodeRunes].
  - rewrite (ToLower_byte c Hu). reflexivity.
  - rewrite (AppendRune_byte c Hc). unfold lowerByte. now rewrite Hu.
Qed.

End SnakeCase.

(** ** UTF-8: decoding a valid sequence and encoding it again *)

Section Utf8RoundTrip.
Local Open Scope Z_scope.

Lemma lor_disjoint (a b k : Z) :
  0 <= k -> 0 <= b < 2 ^ k -> Z.lor (a * 2 ^ k) b = a * 2 ^ k + b.
Proof.
  intros Hk Hb.
  assert (Hl : Z.land (a * 2 ^ k) b = 0).
  { apply Z.bits_inj'. intros n Hn.
    rewrite Z.land_spec, Z.bits_0.
    destruct (Z.lt_ge_cases n k) as [Hlt | Hge].
    - rewrite Z.mul_pow2_bits_low by lia. reflexivity.
    - destruct (Z.eq_dec b 0) as [-> | Hb0].
      + rewrite Z.bits_0. apply andb_false_r.
      + rewrite (Z.bits_above_log2 b n); [apply andb_false_r | lia | ].
        apply Z.log2_lt_pow2; [lia | ].
        apply Z.lt_le_trans with (2 ^ k); [lia | ].
        apply Z.pow_le_mono_r; lia. }
  pose proof (Z.add_lor_land (a * 2 ^ k) b) as H. lia.
Qed.

Lemma land_mask (x k : Z) : 0 <= k -> Z.land x (2 ^ k - 1) = x mod 2 ^ k.
Proof.
  intros Hk. rewrite <- Z.land_ones by exact Hk. f_equal.
  rewrite Z.ones_equiv. lia.
Qed.

Lemma encode_two (s0 s1 : Z) :
  0xC2 <= s0 <= 0xDF -> 0x80 <= s1 <= 0xBF ->
  utf8.AppendRune
    (Z.lor (Z.shiftl (Z.land s0 utf8.mask2) 6) (Z.land s1 utf8.maskx))
  = String (Zbyte s0) (String (Zbyte s1) "").
Proof.
  intros H0 H1.
  change utf8.mask2 with (2 ^ 5 - 1). change utf8.maskx with (2 ^ 6 - 1).
  rewrite !land_mask, Z.shiftl_mul_pow2 by lia.
  rewrite lor_disjoint by (try lia; apply Z.mod_pos_bound; lia).
  replace (s0 mod 2 ^ 5) with (s0 - 192) by (change (2^5) with 32; Z.div_mod_to_equations; lia).
  replace (s1 mod 2 ^ 6) with (s1 - 128) by (change (2^6) with 64; Z.div_mod_to_equations; lia).
  change (2 ^ 6) with 64.
  set (r := (s0 - 192) * 64 + (s1 - 128)).
  assert (Hr : 128 <= r <= 2047) by (unfold r; lia).
  unfold utf8.AppendRune, utf8.rune1Max, utf8.rune2Max.
  rewrite (Z.mod_small r (2 ^ 32)) by lia.
  replace (r <=? 127) with false by (symmetry; apply Z.leb_gt; lia).
  replace (r <=? 2047) with true by (symmetry; apply Z.leb_le; lia).
  change utf8.maskx with (2 ^ 6 - 1).
  rewrite land_mask, Z.shiftr_div_pow2 by lia.
  change (2 ^ 6) with 64.
  replace (r / 64) with (s0 - 192) by (unfold r; Z.div_mod_to_equations; lia).
  replace (r mod 64) with (s1 - 128) by (unfold r; Z.div_mod_to_equations; lia).
  change utf8.t2 with (6 * 2 ^ 5). change utf8.tx with (2 * 2 ^ 6).
  rewrite !lor_disjoint by lia.
  replace (6 * 2 ^ 5 + (s0 - 192)) with s0 by lia.
  replace (2 * 2 ^ 6 + (s1 - 128)) with s1 by lia.
  reflexivity.
Qed.

Ltac settle_tests :=
  repeat match goal with
  | |- context [?a <=? ?b] =>
    first [ replace (a <=? b) with true by (symmetry; apply Z.leb_le; lia)
          | replace (a <=? b) with false by (symmetry; apply Z.leb_gt; lia) ]
  | |- context [?a <? ?b] =>
    first [ replace (a <? b) with true by (symmetry; apply Z.ltb_lt; lia)
          | replace (a <? b) with false by (symmetry; apply Z.ltb_ge; lia) ]
  end.

Lemma encode_three (s0 s1 s2 : Z) :
  0xE0 <= s0 <= 0xEF -> 0x80 <= s1 <= 0xBF -> 0x80 <= s2 <= 0xBF ->
  (s0 = 0xE0 -> 0xA0 <= s1) -> (s0 = 0xED -> s1 <= 0x9F) ->
  utf8.AppendRune
    (Z.lor (Z.lor (Z.shiftl (Z.land s0 utf8.mask3) 12)
                  (Z.shiftl (Z.land s1 utf8.maskx) 6))
           (Z.land s2 utf8.maskx))
  = String (Zbyte s0) (String (Zbyte s1) (String (Zbyte s2) "")).
Proof.
  intros H0 H1 H2 Hlo Hhi.
  change utf8.mask3 with (2 ^ 4 - 1). change utf8.maskx with (2 ^ 6 - 1).
  rewrite !land_mask, !Z.shiftl_mul_pow2 by lia.
  replace (s0 mod 2 ^ 4) with (s0 - 224)
    by (change (2 ^ 4) with 16; Z.div_mod_to_equations; lia).
  replace (s1 mod 2 ^ 6) with (s1 - 128)
    by (change (2 ^ 6) with 64; Z.div_mod_to_equations; lia).
  replace (s2 mod 2 ^ 6) with (s2 - 128)
    by (change (2 ^ 6) with 64; Z.div_mod_to_equations; lia).
  rewrite (lor_disjoint (s0 - 224) _ 12) by lia.
  replace ((s0 - 224) * 2 ^ 12 + (s1 - 128) * 2 ^ 6)
    with (((s0 - 224) * 64 + (s1 - 128)) * 2 ^ 6) by lia.
  rewrite lor_disjoint by lia.
  change (2 ^ 6) with 64.
  set (r := ((s0 - 224) * 64 + (s1 - 128)) * 64 + (s2 - 128)).
  assert (Hr : 0x800 <= r <= 0xFFFF /\ (r < 0xD800 \/ 0xDFFF < r))
    by (unfold r; lia).
  unfold utf8.AppendRune, utf8.rune1Max, utf8.rune2Max, utf8.rune3Max,
    utf8.MaxRune, utf8.surrogateMin, utf8.surrogateMax.
  rewrite (Z.mod_small r (2 ^ 32)) by lia.
  assert (Hs : (55296 <=? r) && (r <=? 57343) = false).
  { apply andb_false_iff. rewrite Z.leb_gt, Z.leb_gt. lia. }
  rewrite Hs. settle_tests. cbn [orb].
  unfold utf8.encode3. change utf8.maskx with (2 ^ 6 - 1).
  rewrite !land_mask, !Z.shiftr_div_pow2 by lia.
  change (2 ^ 6) with 64. change (2 ^ 12) with 4096.
  replace (r / 4096) with (s0 - 224) by (unfold r; Z.div_mod_to_equations; lia).
  replace (r / 64 mod 64) with (s1 - 128)
    by (unfold r; Z.div_mod_to_equations; lia).
  replace (r mod 64) with (s2 - 128) by (unfold r; Z.div_mod_to_equations; lia).
  change utf8.t3 with (14 * 2 ^ 4). change utf8.tx with (2 * 2 ^ 6).
  rewrite !lor_disjoint by lia.
  replace (14 * 2 ^ 4 + (s0 - 224)) with s0 by lia.
  replace (2 * 2 ^ 6 + (s1 - 128)) with s1 by lia.
  replace (2 * 2 ^ 6 + (s2 - 128)) with s2 by lia.
  reflexivity.
Qed.

Lemma encode_four (s0 s1 s2 s3 : Z) :
  0xF0 <= s0 <= 0xF4 -> 0x80 <= s1 <= 0xBF -> 0x80 <= s2 <= 0xBF ->
  0x80 <= s3 <= 0xBF ->
  (s0 = 0xF0 -> 0x90 <= s1) -> (s0 = 0xF4 -> s1 <= 0x8F) ->
  utf8.AppendRune
    (Z.lor (Z.lor (Z.lor (Z.shiftl (Z.land s0 utf8.mask4) 18)
                         (Z.shiftl (Z.land s1 utf8.maskx) 12))
                  (Z.shiftl (Z.land s2 utf8.maskx) 6))
           (Z.land s3 utf8.maskx))
  = String (Zbyte s0) (String (Zbyte s1)
      (String (Zbyte s2) (String (Zbyte s3) ""))).
Proof.
  intros H0 H1 H2 H3 Hlo Hhi.
  change utf8.mask4 with (2 ^ 3 - 1). change utf8.maskx with (2 ^ 6 - 1).
  rewrite !land_mask, !Z.shiftl_mul_pow2 by lia.
  replace (s0 mod 2 ^ 3) with (s0 - 240)
    by (change (2 ^ 3) with 8; Z.div_mod_to_equations; lia).
  replace (s1 mod 2 ^ 6) with (s1 - 128)
    by (change (2 ^ 6) with 64; Z.div_mod_to_equations; lia).
  replace (s2 mod 2 ^ 6) with (s2 - 128)
    by (change (2 ^ 6) with 64; Z.div_mod_to_equations; lia).
  replace (s3 mod 2 ^ 6) with (s3 - 128)
    by (change (2 ^ 6) with 64; Z.div_mod_to_equations; lia).
  rewrite (lor_disjoint (s0 - 240) _ 18) by lia.
  replace ((s0 - 240) * 2 ^ 18 + (s1 - 128) * 2 ^ 12)
    with (((s0 - 240) * 64 + (s1 - 128)) * 2 ^ 12) by lia.
  rewrite (lor_disjoint _ _ 12) by lia.
  replace (((s0 - 240) * 64 + (s1 - 128)) * 2 ^ 12 + (s2 - 128) * 2 ^ 6)
    with ((((s0 - 240) * 64 + (s1 - 128)) * 64 + (s2 - 128)) * 2 ^ 6) by lia.
  rewrite lor_disjoint by lia.
  change (2 ^ 6) with 64.
  set (r := (((s0 - 240) * 64 + (s1 - 128)) * 64 + (s2 - 128)) * 64
            + (s3 - 128)).
  assert (Hr : 0x10000 <= r <= 0x10FFFF) by (unfold r; lia).
  unfold utf8.AppendRune, utf8.rune1Max, utf8.rune2Max, utf8.rune3Max,
    utf8.MaxRune, utf8.surrogateMin, utf8.surrogateMax.
  rewrite (Z.mod_small r (2 ^ 32)) by lia.
  settle_tests. cbn [orb andb].
  change utf8.maskx with (2 ^ 6 - 1).
  rewrite !land_mask, !Z.shiftr_div_pow2 by lia.
  change (2 ^ 6) with 64. change (2 ^ 12) with 4096.
  change (2 ^ 18) with 262144.
  replace (r / 262144) with (s0 - 240)
    by (unfold r; Z.div_mod_to_equations; lia).
  replace (r / 4096 mod 64) with (s1 - 128)
    by (unfold r; Z.div_mod_to_equations; lia).
  replace (r / 64 mod 64) with (s2 - 128)
    by (unfold r; Z.div_mod_to_equations; lia).
  replace (r mod 64) with (s3 - 128) by (unfold r; Z.div_mod_to_equations; lia).
  change utf8.t4 with (30 * 2 ^ 3). change utf8.tx with (2 * 2 ^ 6).
  rewrite !lor_disjoint by lia.
  replace (30 * 2 ^ 3 + (s0 - 240)) with s0 by lia.
  replace (2 * 2 ^ 6 + (s1 - 128)) with s1 by lia.
  replace (2 * 2 ^ 6 + (s2 - 128)) with s2 by lia.
  replace (2 * 2 ^ 6 + (s3 - 128)) with s3 by lia.
  reflexivity.
Qed.

Lemma first_spec (b : Z) :
  match utf8.first b with
  | utf8.AS => b < 0x80
  | utf8.XX => True
  | utf8.Lead sz lo hi =>
    0x80 <= lo /\ hi <= 0xBF /\
    ((sz = 2%nat /\ 0xC2 <= b <= 0xDF)
     \/ (sz = 3%nat /\ 0xE0 <= b <= 0xEF /\
         (b = 0xE0 -> 0xA0 <= lo) /\ (b = 0xED -> hi <= 0x9F))
     \/ (sz = 4%nat /\ 0xF0 <= b <= 0xF4 /\
         (b = 0xF0 -> 0x90 <= lo) /\ (b = 0xF4 -> hi <= 0x8F)))
  end.
Proof.
  unfold utf8.first, utf8.locb, utf8.hicb.
  repeat match goal with
  | |- context [?a <? ?c] =>
    let E := fresh "E" in
    destruct (a <? c) eqn:E;
    [apply Z.ltb_lt in E | apply Z.ltb_ge in E]
  | |- context [?a =? ?c] =>
    let E := fresh "E" in
    destruct (a =? c) eqn:E;
    [apply Z.eqb_eq in E | apply Z.eqb_neq in E]
  end; try exact I; lia.
Qed.

Lemma outside_false (lo hi b : Z) :
  utf8.outside lo hi b = false -> lo <= b <= hi.
Proof.
  unfold utf8.outside. intros H. apply orb_false_iff in H as [H1 H2].
  apply Z.ltb_ge in H1, H2. lia.
Qed.

(** A sequence that decodes without error is the encoding of the rune
    it decodes to. *)
Lemma decode_encode (c0 : ascii) (r0 : string) (r : Z) (w : nat) :
  utf8.DecodeRuneInString (String c0 r0) = (r, w) ->
  (r =? utf8.RuneError) && (w =? 1)%nat = false ->
  exists p rest,
    utf8.AppendRune r = String c0 p /\ r0 = p +:+ rest /\
    S (String.length p) = w.
Proof.
  unfold utf8.DecodeRuneInString.
  pose proof (first_spec (byteZ c0)) as Hf.
  destruct (utf8.first (byteZ c0)) as [ | | sz lo hi].
  - intros [= <- <-] _. exists "", r0.
    rewrite AppendRune_byte by (apply Z.ltb_lt; exact Hf). auto.
  - intros [= <- <-]. discriminate.
  - destruct Hf as (Hlo & Hhi & Hsz).
    destruct (String.length (String c0 r0) <? sz)%nat eqn:Hlen;
      [intros [= <- <-]; discriminate | ].
    destruct r0 as [ | c1 r1]; [intros [= <- <-]; discriminate | ].
    destruct (utf8.outside lo hi (byteZ c1)) eqn:H1;
      [intros [= <- <-]; discriminate | ].
    apply outside_false in H1.
    destruct Hsz as [[-> Hb] | [(-> & Hb & Ha & Hz) | (-> & Hb & Ha & Hz)]];
      cbn [Nat.leb].
    + intros [= <- <-] _. exists (String c1 ""), r1.
      rewrite encode_two by lia. rewrite !Zbyte_byteZ. auto.
    + destruct r1 as [ | c2 r2]; [intros [= <- <-]; discriminate | ].
      destruct (utf8.outside utf8.locb utf8.hicb (byteZ c2)) eqn:H2;
        [intros [= <- <-]; discriminate | ].
      apply outside_false in H2. unfold utf8.locb, utf8.hicb in H2.
      intros [= <- <-] _. exists (String c1 (String c2 "")), r2.
      rewrite encode_three by lia. rewrite !Zbyte_byteZ. auto.
    + destruct r1 as [ | c2 r2]; [intros [= <- <-]; discriminate | ].
      destruct (utf8.outside utf8.locb utf8.hicb (byteZ c2)) eqn:H2;
        [intros [= <- <-]; discriminate | ].
      apply outside_false in H2. unfold utf8.locb, utf8.hicb in H2.
      destruct r2 as [ | c3 r3]; [intros [= <- <-]; discriminate | ].
      destruct (utf8.outside utf8.locb utf8.hicb (byteZ c3)) eqn:H3;
        [intros [= <- <-]; discriminate | ].
      apply outside_false in H3. unfold utf8.locb, utf8.hicb in H3.
      intros [= <- <-] _. exists (String c1 (String c2 (String c3 ""))), r3.
      rewrite encode_four by lia. rewrite !Zbyte_byteZ. auto.
Qed.

Lemma rangeFrom_skip (p rest : string) :
  forall i, rangeFrom (String.length p) i (p +:+ rest)
            = rangeFrom 0 (i + String.length p) rest.
Proof.
  induction p as [ | c p IH]; intros i; simpl String.length.
  - simpl. now rewrite Nat.add_0_r.
  - cbn [String.append rangeFrom]. rewrite IH. f_equal. lia.
Qed.

Lemma validFrom_skip (p rest : string) :
  validFrom (String.length p) (p +:+ rest) = validFrom 0 rest.
Proof.
  induction p as [ | c p IH]; [reflexivity | ].
  simpl String.length. cbn [String.append validFrom]. exact IH.
Qed.

Lemma length_append (s1 s2 : string) :
  String.length (s1 +:+ s2) = (String.length s1 + String.length s2)%nat.
Proof. induction s1 as [ | c s1 IH]; simpl; [reflexivity | now rewrite IH]. Qed.

(** Decoding a valid UTF-8 string rune by rune and encoding the runes
    again gives the string back. *)
Lemma valid_roundtrip (n : nat) :
  forall s : string, (String.length s <= n)%nat -> ValidString s = true ->
  forall i, encodeRunes (map snd (rangeFrom 0 i s)) = s.
Proof.
  unfold ValidString.
  induction n as [ | n IH]; intros s Hn Hv i.
  - destruct s; [reflexivity | simpl in Hn; lia].
  - destruct s as [ | c s]; [reflexivity | ].
    cbn [rangeFrom validFrom] in Hv |- *.
    destruct (utf8.DecodeRuneInString (String c s)) as [r w] eqn:Hd.
    apply andb_true_iff in Hv as [Hok Hv]. apply negb_true_iff in Hok.
    destruct (decode_encode c s r w Hd Hok) as (p & rest & He & -> & <-).
    cbn [Nat.sub] in Hv |- *. rewrite Nat.sub_0_r in Hv |- *.
    rewrite validFrom_skip in Hv. rewrite rangeFrom_skip.
    cbn [map snd encodeRunes]. rewrite He.
    rewrite IH; [reflexivity | | exact Hv].
    simpl in Hn. rewrite length_append in Hn. lia.
Qed.

Lemma runes_valid (s : string) :
  ValidString s = true -> encodeRunes (runes s) = s.
Proof.
  intros Hv. exact (valid_roundtrip (String.length s) s (le_n _) Hv 0%nat).
Qed.
End Utf8RoundTrip.

(** ** toCamelCase *)

Section CamelCase.
Context {T : UnicodeTables}.

(** The loop body at an index inside the slice capitalizes that part. *)
Lemma capitalizeAt_lookup (parts : list string) (i : nat) (p : string) :
  parts !! i = Some p -> capitalizeAt parts i = <[i := capitalize p]> parts.
Proof.
  intros Hp. unfold capitalizeAt. rewrite Hp.
  destruct p as [ | c rest]; simpl.
  - symmetry. now apply list_insert_id.
  - now rewrite sliceTo_first, sliceFrom_first.
Qed.

(** Running the loop over the indices [a, a+n) capitalizes exactly
    those parts. *)
Lemma capitalize_loop (n : nat) :
  forall (a : nat) (parts : list string),
    a + n = length parts ->
    fold_left capitalizeAt (seq a n) parts
    = (take a parts ++ map capitalize (drop a parts))%list.
Proof.
  induction n as [ | n IH]; intros a parts Hlen.
  - simpl. rewrite drop_ge by lia. rewrite take_ge by lia.
    now rewrite app_nil_r.
  - cbn [seq fold_left].
    assert (Hlt : a < length parts) by lia.
    destruct (lookup_lt_is_Some_2 parts a Hlt) as [p Hp].
    rewrite (capitalizeAt_lookup parts a p Hp).
    rewrite IH by (rewrite length_insert; lia).
    rewrite (take_S_r (<[a:=capitalize p]> parts) a (capitalize p))
      by (apply list_lookup_insert_eq; exact Hlt).
    rewrite take_insert_ge by lia.
    rewrite drop_insert_lt by lia.
    rewrite (drop_S parts p a Hp). cbn [map].
    now rewrite <- app_assoc.
Qed.

(** The in-place loop of [toCamelCase] is the map of [capitalize] over
    the segments, on every byte string. *)
Lemma toCamelCase_segments (s : string) : toCamelCase s = toFieldCase s.
Proof.
  unfold toCamelCase, toFieldCase, strings.Join.
  rewrite capitalize_loop by reflexivity.
  now rewrite take_0, drop_0.
Qed.

(** [strings.ToUpper] on one ASCII byte. *)
Lemma ToUpper_byte (c : ascii) :
  (byteZ c <? 0x80)%Z = true ->
  strings.ToUpper (String c "") = String (strings.upperByte c) "".
Proof.
  intros Hc. unfold strings.ToUpper. cbn [strings.allBytes strings.anyByte].
  unfold utf8.RuneSelf. rewrite Hc. cbn [andb]. rewrite orb_false_r.
  unfold strings.upperByte.
  destruct (strings.isLowerByte c) eqn:Hl; [ | reflexivity].
  cbn [strings.mapBytes]. unfold strings.upperByte. now rewrite Hl.
Qed.

(** [strings.ToUpper] on one byte that is not ASCII: the byte is no
    UTF-8 sequence, [strings.Map] reads it as the error rune and
    writes what [unicode.ToUpper] makes of that rune. *)
Lemma ToUpper_high_byte (c : ascii) :
  (byteZ c <? 0x80)%Z = false ->
  strings.ToUpper (String c "")
  = if (0 <=? To_UpperCase utf8.RuneError)%Z
    then utf8.AppendRune (To_UpperCase utf8.RuneError) else "".
Proof.
  intros Hc. unfold strings.ToUpper. cbn [strings.allBytes].
  unfold utf8.RuneSelf. rewrite Hc. cbn [andb].
  assert (Hd : utf8.DecodeRuneInString (String c "") = (utf8.RuneError, 1)).
  { unfold utf8.DecodeRuneInString.
    pose proof (first_spec (byteZ c)) as Hf.
    destruct (utf8.first (byteZ c)) as [ | | sz lo hi].
    - apply Z.ltb_ge in Hc. lia.
    - reflexivity.
    - destruct Hf as (_ & _ & [[-> _] | [(-> & _) | (-> & _)]]); reflexivity. }
  unfold strings.Map, stringRange. cbn [rangeFrom]. rewrite Hd.
  cbn [strings.mapFirst]. rewrite sliceFrom_zero, Hd.
  change (unicode.ToUpper utf8.RuneError) with (To_UpperCase utf8.RuneError).
  rewrite andb_false_r. cbn [Z.eqb utf8.RuneError Pos.eqb Nat.eqb negb andb].
  rewrite sliceFrom_first. unfold sliceTo, strings.mapRest, strings.WriteString,
    strings.WriteRune, stringRange. cbn [substring rangeFrom fold_left Nat.add].
  destruct (0 <=? To_UpperCase utf8.RuneError)%Z; simpl;
    now rewrite ?append_nil_r.
Qed.

Lemma capitalize_ascii (p : string) :
  match p with
  | "" => True
  | String c _ => (byteZ c <? 0x80)%Z = true
  end ->
  capitalize p = capitalizeASCII p.
Proof.
  destruct p as [ | c rest]; [reflexivity | ].
  intros Hc. simpl. now rewrite (ToUpper_byte c Hc).
Qed.

End CamelCase.

Section CaseConverters.
Context {T : UnicodeTables}.

Lemma Split_bytes (p : ascii -> bool) (sep : ascii) (s : string) :
  strings.allBytes p s = true ->
  Forall (fun part => strings.allBytes p part = true) (strings.Split s sep).
Proof.
  induction s as [ | c s IH]; intros Hs; cbn [strings.Split].
  - repeat constructor.
  - cbn [strings.allBytes] in Hs. apply andb_true_iff in Hs as [Hc Hs].
    specialize (IH Hs).
    destruct (Ascii.eqb c sep).
    + constructor; [reflexivity | exact IH].
    + destruct (strings.Split s sep) as [ | part parts].
      * repeat constructor. cbn [strings.allBytes]. now rewrite Hc.
      * inversion IH as [ | ? ? Hpart Hparts]; subst.
        constructor; [ | exact Hparts].
        cbn [strings.allBytes]. now rewrite Hc, Hpart.
Qed.

Lemma Split_no_separator (sep : ascii) (s : string) :
  strings.allBytes (fun c => negb (Ascii.eqb c sep)) s = true ->
  strings.Split s sep = [s].
Proof.
  induction s as [ | c s IH]; intros Hs; [reflexivity | ].
  cbn [strings.allBytes] in Hs. apply andb_true_iff in Hs as [Hc Hs].
  cbn [strings.Split]. apply negb_true_iff in Hc. rewrite Hc.
  now rewrite (IH Hs).
Qed.

(** On ASCII input [toCamelCase] is the byte-level conversion: split on
    underscore, first byte of each segment in upper case, rest
    unchanged, no separator. *)
Lemma toCamelCase_ascii (s : string) :
  isASCII s = true ->
  toCamelCase s
  = String.concat "" (map capitalizeASCII (strings.Split s "_"%char)).
Proof.
  intros Hs. rewrite toCamelCase_segments. unfold toFieldCase. f_equal.
  apply map_ext_Forall.
  eapply Forall_impl; [apply (Split_bytes _ "_"%char s Hs) | ].
  intros part Hpart. cbv beta in Hpart. apply capitalize_ascii.
  destruct part as [ | c rest]; [exact I | ].
  cbn [strings.allBytes] in Hpart. now apply andb_true_iff in Hpart as [Hc _].
Qed.

Lemma isUpperByte_ascii (c : ascii) :
  isUpperByte c = true ->
  (byteZ c <? 0x80)%Z = true /\ negb (Ascii.eqb c "_"%char) = true
  /\ strings.upperByte c = c.
Proof.
  intros Hu. unfold isUpperByte in Hu. apply andb_true_iff in Hu as [H1 H2].
  apply Z.leb_le in H1, H2. split; [apply Z.ltb_lt; lia | ]. split.
  - apply negb_true_iff, Ascii.eqb_neq. intros ->.
    vm_compute in H2. now apply H2.
  - unfold strings.upperByte, strings.isLowerByte.
    replace (97 <=? byteZ c)%Z with false by (symmetry; apply Z.leb_gt; lia).
    reflexivity.
Qed.

Lemma allBytes_impl (p q : ascii -> bool) (s : string) :
  (forall c, p c = true -> q c = true) ->
  strings.allBytes p s = true -> strings.allBytes q s = true.
Proof.
  intros Hpq. induction s as [ | c s IH]; [reflexivity | ].
  cbn [strings.allBytes]. intros H. apply andb_true_iff in H as [Hc Hs].
  now rewrite (Hpq c Hc), (IH Hs).
Qed.

(** The ASCII cases the specification lists for toFieldCase. *)
Lemma toCamelCase_ascii_cases :
  toCamelCase "" = ""
  /\ (forall c : ascii, (byteZ c <? 0x80)%Z = true -> c <> "_"%char ->
      toCamelCase (String c "") = String (strings.upperByte c) "")
  /\ (forall s : string, strings.allBytes isUpperByte s = true ->
      toCamelCase s = s).
Proof.
  split; [reflexivity | ]. split.
  - intros c Hc Hsep.
    rewrite toCamelCase_ascii by (unfold isASCII; simpl; now rewrite Hc).
    cbn [strings.Split]. apply Ascii.eqb_neq in Hsep. now rewrite Hsep.
  - intros s Hs.
    rewrite toCamelCase_ascii
      by (eapply allBytes_impl; [ | exact Hs];
          intros c Hc; now apply isUpperByte_ascii).
    rewrite Split_no_separator
      by (eapply allBytes_impl; [ | exact Hs];
          intros c Hc; now apply isUpperByte_ascii).
    simpl. destruct s as [ | c rest]; [reflexivity | ].
    cbn [strings.allBytes] in Hs. apply andb_true_iff in Hs as [Hc _].
    simpl. now destruct (isUpperByte_ascii c Hc) as (_ & _ & ->).
Qed.

Lemma toFileCase_no_upper (rs : list Z) :
  Forall (fun r => unicode.IsUpper r = false) rs -> toFileCase rs = rs.
Proof.
  intros H. destruct H as [ | r rs Hr Hrs]; [reflexivity | ].
  cbn [toFileCase]. unfold fileCaseFirst. rewrite Hr. cbn [app]. f_equal.
  induction Hrs as [ | r' rs' Hr' _ IH]; [reflexivity | ].
  cbn [flat_map]. unfold fileCaseLater at 1. rewrite Hr'. cbn [app].
  now rewrite IH.
Qed.

Lemma toFileCase_all_upper (r : Z) (rs : list Z) :
  Forall (fun r => unicode.IsUpper r = true) (r :: rs) ->
  toFileCase (r :: rs)
  = unicode.ToLower r :: flat_map (fun x => [0x5F%Z; unicode.ToLower x]) rs.
Proof.
  intros H. inversion H as [ | ? ? Hr Hrs]; subst. clear H.
  cbn [toFileCase]. unfold fileCaseFirst. rewrite Hr. cbn [app]. f_equal.
  induction Hrs as [ | r' rs' Hr' _ IH]; [reflexivity | ].
  cbn [flat_map]. unfold fileCaseLater at 1. rewrite Hr', IH. reflexivity.
Qed.

(** C8.  [toSnakeCase] is a total function on byte strings and scans
    its input character by character: on every input the result is
    the encoding of the characters of [toFileCase] (an uppercase
    first character is lowercased, every later uppercase character
    becomes an underscore and its lowercase form, any other character
    is kept); the empty string gives the empty string; a valid UTF-8
    string without uppercase character comes back byte for byte; on
    ASCII input the conversion is the byte-level one; and in a string
    of uppercase characters every character after the first gets an
    underscore of its own, as in ABC. *)
Theorem toSnakeCase_scan :
  (forall s : string, toSnakeCase s = encodeRunes (toFileCase (runes s)))
  /\ toSnakeCase "" = ""
  /\ (forall s : string, ValidString s = true ->
      Forall (fun r => unicode.IsUpper r = false) (runes s) ->
      toSnakeCase s = s)
  /\ (forall s : string, isASCII s = true -> toSnakeCase s = snakeASCII s)
  /\ (forall (s : string) (r : Z) (rs : list Z),
      runes s = r :: rs ->
      Forall (fun r => unicode.IsUpper r = true) (r :: rs) ->
      toSnakeCase s
      = encodeRunes
          (unicode.ToLower r
             :: flat_map (fun x => [0x5F%Z; unicode.ToLower x]) rs))
  /\ toSnakeCase "ABC" = "a_b_c".
Proof.
  split; [exact toSnakeCase_runes | ].
  split; [reflexivity | ].
  split.
  { intros s Hv Hn. rewrite toSnakeCase_runes, (toFileCase_no_upper _ Hn).
    now apply runes_valid. }
  split; [exact toSnakeCase_ascii | ].
  split.
  { intros s r rs Hs Hu.
    now rewrite toSnakeCase_runes, Hs, (toFileCase_all_upper r rs Hu). }
  now rewrite toSnakeCase_ascii.
Qed.

(** C9.  Neither composition of the two converters is the identity:
    the all-uppercase, underscore-free ABC is not recovered from its
    field-case form, and the lowercase user is not recovered from its
    file-case form. *)
Theorem converters_not_round_trip :
  (exists s : string,
      strings.allBytes isUpperByte s = true /\
      toSnakeCase (toCamelCase s) <> s)
  /\ (exists t : string, toCamelCase (toSnakeCase t) <> t).
Proof.
  split.
  - exists "ABC". split; [reflexivity | ].
    destruct toCamelCase_ascii_cases as (_ & _ & Hup).
    rewrite (Hup "ABC" eq_refl), toSnakeCase_ascii by reflexivity.
    discriminate.
  - exists "user". rewrite toSnakeCase_ascii by reflexivity.
    rewrite toCamelCase_ascii by reflexivity. discriminate.
Qed.

(** The all-uppercase input does come back through the other
    composition. *)
Lemma upper_round_trip_camel_of_snake :
  toCamelCase (toSnakeCase "ABC") = "ABC".
Proof.
  rewrite toSnakeCase_ascii by reflexivity.
  now rewrite toCamelCase_ascii by reflexivity.
Qed.

End CaseConverters.

(** C7.  [toCamelCase] uppercases the first _byte_ of a segment, not its
    first character.  On the one-character segment [é] (C3 A9) the
    result is never [É] (C3 89), whatever the Unicode tables hold: the
    byte C3 alone is no UTF-8 sequence, and with U+FFFD caseless, as in
    Unicode, the result is the four bytes EF BF BD A9, which are not
    valid UTF-8. *)
Theorem toCamelCase_first_byte {T : UnicodeTables} :
  toCamelCase e_acute <> E_acute
  /\ (To_UpperCase utf8.RuneError = utf8.RuneError ->
      toCamelCase e_acute
      = String (Zbyte 0xEF) (String (Zbyte 0xBF) (String (Zbyte 0xBD)
          (String (Zbyte 0xA9) "")))
      /\ ValidString (toCamelCase e_acute) = false).
Proof.
  assert (He : toCamelCase e_acute
               = (if (0 <=? To_UpperCase utf8.RuneError)%Z
                  then utf8.AppendRune (To_UpperCase utf8.RuneError) else "")
                 +:+ String (Zbyte 0xA9) "").
  { rewrite toCamelCase_segments. unfold toFieldCase.
    change (strings.Split e_acute "_"%char) with [e_acute].
    cbn [map String.concat]. unfold e_acute at 1. cbn [capitalize].
    now rewrite ToUpper_high_byte by reflexivity. }
  rewrite He. split.
  - destruct (0 <=? To_UpperCase utf8.RuneError)%Z.
    + unfold utf8.AppendRune, utf8.encode3.
      repeat match goal with
      | |- context [if ?b then _ else _] => destruct b
      end; intros H; apply (f_equal list_ascii_of_string) in H;
      vm_compute in H; discriminate H.
    + intros H. vm_compute in H. discriminate H.
  - intros ->. split; reflexivity.
Qed.

Lemma toCamelCase_first_byte_witness :
  @To_UpperCase plainTables utf8.RuneError = utf8.RuneError
  /\ @toCamelCase plainTables e_acute
     = String (Zbyte 0xEF) (String (Zbyte 0xBF) (String (Zbyte 0xBD)
         (String (Zbyte 0xA9) ""))).
Proof.
  split; [reflexivity | ].
  apply (proj2 (@toCamelCase_first_byte plainTables)). reflexivity.
Defined.

Lemma toSnakeCase_scan_witness :
  isASCII "UserAccount" = true
  /\ @toSnakeCase plainTables "UserAccount" = "user_account".
Proof.
  split; [reflexivity | ].
  destruct (@toSnakeCase_scan plainTables) as (_ & _ & _ & Hascii & _).
  exact (Hascii "UserAccount" eq_refl).
Defined.

(** ** The declaration emitter *)

Lemma concat_cons (x : string) (xs : list string) :
  String.concat "" (x :: xs) = x +:+ String.concat "" xs.
Proof. destruct xs; simpl; [now rewrite append_nil_r | reflexivity]. Qed.

Lemma append_loop (l : list string) :
  forall acc : list string,
    fold_left (fun result imp => (result ++ [imp])%list) l acc
    = (acc ++ l)%list.
Proof.
  induction l as [ | x l IH]; intros acc; simpl.
  - now rewrite app_nil_r.
  - rewrite IH. now rewrite <- app_assoc.
Qed.

(** The only key the current revision ever puts in the import set. *)
Lemma imports_fold (cols : list Column) :
  forall m : gmap string bool,
    m = ∅ \/ m = {["time" := true]} ->
    let m' :=
      fold_left
        (fun (imports : gmap string bool) col =>
           if oneOf (DataType col) ["datetime"; "timestamp"; "date"; "time"]
           then <["time" := true]> imports
           else imports)
        cols m in
    (m' = ∅ /\ m = ∅ /\
     existsb (fun col => oneOf (DataType col) timestampFamily) cols = false)
    \/ (m' = {["time" := true]} /\
        (m = {["time" := true]} \/
         existsb (fun col => oneOf (DataType col) timestampFamily) cols = true)).
Proof.
  induction cols as [ | col cols IH]; intros m Hm; cbn [fold_left existsb].
  - destruct Hm as [-> | ->]; [left | right]; auto.
  - fold timestampFamily.
    destruct (oneOf (DataType col) timestampFamily) eqn:Hc.
    + destruct (IH (<["time" := true]> m)) as [(_ & He & _) | (H' & _)].
      * right. destruct Hm as [-> | ->];
          [apply insert_empty | apply insert_singleton_eq].
      * exfalso. destruct Hm as [-> | ->].
        -- rewrite insert_empty in He.
           apply (f_equal (fun x : gmap string bool => x !! "time")) in He.
           rewrite lookup_singleton_eq, lookup_empty in He. discriminate.
        -- rewrite insert_singleton_eq in He.
           apply (f_equal (fun x : gmap string bool => x !! "time")) in He.
           rewrite lookup_singleton_eq, lookup_empty in He. discriminate.
      * right. split; [exact H' | right; reflexivity].
    + cbn [orb]. exact (IH m Hm).
Qed.

Section Emitter.
Context {T : UnicodeTables}.

(** Whatever the order in which the runtime ranges over a map, the
    import list is [time] when some column is of the timestamp family
    and empty otherwise. *)
Lemma collectImports_spec (R : GoRuntime) (table : Table) :
  mapKeys_spec R ->
  collectImports table
  = if existsb (fun col => oneOf (DataType col) timestampFamily)
               (Columns table)
    then ["time"] else [].
Proof.
  intros HR. unfold collectImports. rewrite append_loop. cbn [app].
  destruct (imports_fold (Columns table) ∅ (or_introl eq_refl))
    as [(-> & _ & ->) | (-> & [He | ->])].
  - specialize (HR ∅). rewrite map_to_list_empty in HR.
    now apply Permutation_nil_r in HR.
  - exfalso.
    apply (f_equal (fun x : gmap string bool => x !! "time")) in He.
    rewrite lookup_singleton_eq, lookup_empty in He. discriminate.
  - specialize (HR {["time" := true]}).
    rewrite map_to_list_singleton in HR.
    now apply Permutation_singleton_r in HR.
Qed.

Lemma writeField_loop (cols : list Column) :
  forall buf : string,
    fold_left writeField cols buf
    = buf +:+ String.concat "" (map fieldLine cols).
Proof.
  induction cols as [ | col cols IH]; intros buf; cbn [fold_left map].
  - simpl. now rewrite append_nil_r.
  - rewrite IH, concat_cons, <- append_assoc. reflexivity.
Qed.

Lemma import_loop (imports : list string) :
  forall buf : string,
    fold_left
      (fun buf imp => strings.WriteString buf (tab +:+ quoted imp +:+ nl))
      imports buf
    = buf +:+ String.concat ""
                (map (fun imp => tab +:+ dquote +:+ imp +:+ dquote +:+ nl)
                     imports).
Proof.
  induction imports as [ | imp imports IH]; intros buf; cbn [fold_left map].
  - simpl. now rewrite append_nil_r.
  - rewrite IH, concat_cons, <- append_assoc. unfold strings.WriteString, quoted.
    now rewrite !append_assoc.
Qed.

(** The buffer that [generateStruct] fills is the declaration the
    specification describes. *)
Lemma generateStruct_declaration {R : GoRuntime} (g : Generator) (table : Table) :
  generateStruct g table
  = declaration (packageName g) (collectImports table) table.
Proof.
  unfold generateStruct, declaration, strings.WriteString.
  rewrite writeField_loop.
  destruct (collectImports table) as [ | imp imports] eqn:Hi.
  - cbn [length Nat.ltb Nat.leb importBlock].
    now rewrite !append_assoc, !append_nil_l.
  - cbn [length Nat.ltb Nat.leb importBlock].
    rewrite import_loop. now rewrite !append_assoc, !append_nil_l.
Qed.

End Emitter.

Lemma lookup_map {A B : Type} (f : A -> B) (l : list A) (i : nat) (x : A) :
  l !! i = Some x -> map f l !! i = Some (f x).
Proof.
  revert i. induction l as [ | y l IH]; intros [ | i] H; try discriminate.
  - injection H as ->. reflexivity.
  - exact (IH i H).
Qed.

Lemma forwardRun_spec : mapKeys_spec forwardRun.
Proof. intros m. apply Permutation_refl. Qed.

Lemma backwardRun_spec : mapKeys_spec backwardRun.
Proof. intros m. symmetry. apply Permutation_rev. Qed.

(** C3.  The text [generateStruct] emits is the package clause, the
    import block, the [type ... struct] line, then one rendered field per
    column and the closing brace: the fields are as many as the columns,
    the field at position [i] is the one of the column at position [i],
    and it ends with the [db] tag holding the column name as it was
    read. *)
Theorem generateStruct_fields {T : UnicodeTables} {R : GoRuntime}
        (g : Generator) (table : Table) :
  generateStruct g table
  = "package " +:+ packageName g +:+ nl +:+ nl
    +:+ importBlock (collectImports table)
    +:+ "type " +:+ toCamelCase (TableName table) +:+ " struct {" +:+ nl
    +:+ String.concat "" (map fieldLine (Columns table))
    +:+ "}" +:+ nl
  /\ length (map fieldLine (Columns table)) = length (Columns table)
  /\ (forall (i : nat) (col : Column),
        Columns table !! i = Some col ->
        map fieldLine (Columns table) !! i
        = Some (tab +:+ toCamelCase (Name col) +:+ " "
                +:+ mysqlTypeToGo (DataType col) (IsNullable col) (IsUnsigned col)
                +:+ " " +:+ "`db:" +:+ dquote +:+ Name col +:+ dquote +:+ "`"
                +:+ nl)).
Proof.
  split; [apply generateStruct_declaration | ].
  split; [apply length_map | ].
  intros i col Hi. rewrite (lookup_map fieldLine _ i col Hi).
  unfold fieldLine, annotation. now rewrite !append_assoc.
Qed.

Lemma generateStruct_fields_witness :
  Columns users !! 0 = Some (column "id" "int" false false)
  /\ map (@fieldLine plainTables) (Columns users) !! 0
     = Some (tab +:+ "Id int32 `db:" +:+ dquote +:+ "id" +:+ dquote +:+ "`" +:+ nl).
Proof.
  split; [reflexivity | ].
  destruct (@generateStruct_fields plainTables forwardRun
              (New "models" "out" []) users) as (_ & _ & Hfield).
  exact (Hfield 0 (column "id" "int" false false) eq_refl).
Defined.

(** C4.  For the table [user_accounts] the emitter writes the type
    [UserAccounts] with the five fields in column order, [id] as
    [uint64], [email] as [*string], [created_at] as [time.Time],
    [deleted_at] as [*time.Time], and the single import [time]. *)
Theorem user_accounts_declaration {T : UnicodeTables} {R : GoRuntime}
        (g : Generator) :
  mapKeys_spec R ->
  generateStruct g user_accounts
  = "package " +:+ packageName g +:+ nl +:+ nl +:+ user_accounts_go
  /\ toCamelCase (TableName user_accounts) = "UserAccounts"
  /\ map (fun col => (toCamelCase (Name col),
                      mysqlTypeToGo (DataType col) (IsNullable col)
                                    (IsUnsigned col)))
         (Columns user_accounts)
     = [ ("Id", "uint64"); ("Username", "string"); ("Email", "*string");
         ("CreatedAt", "time.Time"); ("DeletedAt", "*time.Time") ]
  /\ collectImports user_accounts = ["time"].
Proof.
  intros HR.
  assert (Hi : collectImports user_accounts = ["time"])
    by (rewrite (collectImports_spec R user_accounts HR); reflexivity).
  split; [ | split; [ | split]].
  - rewrite generateStruct_declaration, Hi. vm_compute. reflexivity.
  - vm_compute. reflexivity.
  - vm_compute. reflexivity.
  - exact Hi.
Qed.

Lemma user_accounts_declaration_witness :
  mapKeys_spec forwardRun
  /\ @collectImports forwardRun user_accounts = ["time"].
Proof.
  split; [exact forwardRun_spec | ].
  apply (@user_accounts_declaration plainTables forwardRun
           (New "models" "out" []) forwardRun_spec).
Defined.

(** Two runs of the current revision on the same table emit the same
    import list, and so the same text, in whatever order each run
    ranges over the import set. *)
Lemma collectImports_deterministic (R1 R2 : GoRuntime) :
  mapKeys_spec R1 -> mapKeys_spec R2 ->
  forall (T : UnicodeTables) (g : Generator) (table : Table),
    @collectImports R1 table = @collectImports R2 table
    /\ @generateStruct T R1 g table = @generateStruct T R2 g table.
Proof.
  intros H1 H2 T g table.
  assert (Hc : @collectImports R1 table = @collectImports R2 table)
    by now rewrite (collectImports_spec R1 table H1),
                   (collectImports_spec R2 table H2).
  split; [exact Hc | ].
  now rewrite !generateStruct_declaration, Hc.
Qed.

Lemma collectImports_deterministic_witness :
  mapKeys_spec forwardRun /\ mapKeys_spec backwardRun
  /\ @collectImports forwardRun events = @collectImports backwardRun events.
Proof.
  split; [exact forwardRun_spec | ]. split; [exact backwardRun_spec | ].
  apply (collectImports_deterministic forwardRun backwardRun
           forwardRun_spec backwardRun_spec plainTables
           (New "models" "out" []) events).
Defined.

(** The first revision collects two imports for a nullable timestamp
    column and returns them in the order of the map range: two runs may
    disagree. *)
Lemma Early_collectImports_order :
  mapKeys_spec forwardRun /\ mapKeys_spec backwardRun
  /\ @Early.collectImports forwardRun events
     <> @Early.collectImports backwardRun events.
Proof.
  split; [exact forwardRun_spec | ]. split; [exact backwardRun_spec | ].
  vm_compute. discriminate.
Qed.

(** The text the first revision emits for a table, given its import
    list: the package clause is followed by the import block and the
    declaration. *)
Lemma Early_generateStruct_text (T : UnicodeTables) (R : GoRuntime)
      (g : EarlyRun.Generator) (table : Table) :
  @EarlyRun.generateStruct T R g table
  = ("package " +:+ EarlyRun.packageName g +:+ nl +:+ nl)
    +:+ (if (0 <? length (@Early.collectImports R table))%nat
         then ("import (" +:+ nl)
              +:+ String.concat ""
                    (map (fun imp => tab +:+ quoted imp +:+ nl)
                         (@Early.collectImports R table))
              +:+ (")" +:+ nl +:+ nl)
         else "")
    +:+ ("type " +:+ toCamelCase (TableName table) +:+ " struct {" +:+ nl)
    +:+ String.concat "" (map (fun col => @EarlyRun.writeField T "" col)
                              (Columns table))
    +:+ ("}" +:+ nl).
Proof.
  unfold EarlyRun.generateStruct, strings.WriteString.
  assert (Hi : forall (l : list string) (buf : string),
             fold_left (fun buf imp => buf +:+ (tab +:+ quoted imp +:+ nl)) l buf
             = buf +:+ String.concat ""
                         (map (fun imp => tab +:+ quoted imp +:+ nl) l)).
  { induction l as [ | x l IH]; intros buf; cbn [fold_left map].
    - cbn [String.concat]. now rewrite append_nil_r.
    - rewrite IH, concat_cons. now rewrite !append_assoc. }
  assert (Hc : forall (l : list Column) (buf : string),
             fold_left (@EarlyRun.writeField T) l buf
             = buf +:+ String.concat ""
                         (map (fun col => @EarlyRun.writeField T "" col) l)).
  { induction l as [ | x l IH]; intros buf; cbn [fold_left map].
    - cbn [String.concat]. now rewrite append_nil_r.
    - rewrite IH, concat_cons.
      replace (@EarlyRun.writeField T buf x)
        with (buf +:+ @EarlyRun.writeField T "" x) by reflexivity.
      now rewrite append_assoc. }
  rewrite Hc. destruct (0 <? length (@Early.collectImports R table))%nat.
  - rewrite Hi. now rewrite !append_assoc, !append_nil_l.
  - now rewrite !append_assoc, !append_nil_l.
Qed.

Lemma append_cancel_l (p s1 s2 : string) : p +:+ s1 = p +:+ s2 -> s1 = s2.
Proof.
  induction p as [ | c p IH]; cbn [String.append]; intros H; [exact H | ].
  injection H as H. exact (IH H).
Qed.

(** C5.  The import list of a run comes in the order in which that run
    ranges over the import set.  The current revision only ever puts
    [time] in the set, so any two runs of it return the same list.  The
    first revision puts [time] and [database/sql] in the set for a
    nullable timestamp column and does not sort: on the table of one
    nullable [datetime] column, two runs that range over the set in
    opposite orders return the two imports in opposite orders and emit
    different texts, whatever the package.  There the order is not
    stable across runs. *)
Theorem collectImports_run_order :
  (forall R1 R2 : GoRuntime,
      mapKeys_spec R1 -> mapKeys_spec R2 ->
      forall table : Table,
        @collectImports R1 table = @collectImports R2 table)
  /\ mapKeys_spec forwardRun /\ mapKeys_spec backwardRun
  /\ @Early.collectImports forwardRun events = ["time"; "database/sql"]
  /\ @Early.collectImports backwardRun events = ["database/sql"; "time"]
  /\ forall (T : UnicodeTables) (g : EarlyRun.Generator),
       @EarlyRun.generateStruct T forwardRun g events
       <> @EarlyRun.generateStruct T backwardRun g events.
Proof.
  split.
  { intros R1 R2 H1 H2 table.
    now rewrite (collectImports_spec R1 table H1),
                (collectImports_spec R2 table H2). }
  split; [exact forwardRun_spec | ]. split; [exact backwardRun_spec | ].
  split; [reflexivity | ]. split; [reflexivity | ].
  intros T g H. rewrite !Early_generateStruct_text in H.
  apply append_cancel_l in H.
  change (@Early.collectImports forwardRun events)
    with ["time"; "database/sql"] in H.
  change (@Early.collectImports backwardRun events)
    with ["database/sql"; "time"] in H.
  cbn [length Nat.ltb Nat.leb map] in H.
  rewrite !append_assoc in H. apply append_cancel_l in H.
  rewrite !concat_cons in H. vm_compute in H. discriminate H.
Qed.

Lemma collectImports_run_order_witness :
  mapKeys_spec forwardRun /\ mapKeys_spec backwardRun
  /\ @collectImports forwardRun events = @collectImports backwardRun events.
Proof.
  split; [exact forwardRun_spec | ]. split; [exact backwardRun_spec | ].
  exact (proj1 collectImports_run_order forwardRun backwardRun
               forwardRun_spec backwardRun_spec events).
Defined.

(** ** The overwrite policy of [Generate] *)

Section Overwrite.
Context {T : UnicodeTables} {R : GoRuntime} {P : Platform}.

(** C6.  Let the target file exist, the output directory be creatable
    and the formatter accept the generated text.  With [force] set
    the file is overwritten (when the write succeeds) and nobody is
    asked, whatever callback is configured.  With [force] unset and a
    callback that answers [false], [Generate] returns [ErrSkipped],
    which is none of the generation errors, every file is left as it
    was and the callback has been asked once, about the target path.
    With [force] unset and a callback that answers [true], the file is
    overwritten and the callback has been asked exactly once. *)
Theorem Generate_overwrite_policy
        (g : Generator) (table : Table) (w : World) (old formatted : string) :
  files w !! targetPath g table = Some old ->
  MkdirAll_fails (outputDir g) (files w) = false ->
  format_Source (generateStruct g table) = Some formatted ->
  (force g = true ->
   WriteFile_fails (targetPath g table) formatted (files w) = None ->
   Generate g table w
   = (None, {| files := <[targetPath g table := formatted]> (files w);
               prompts := prompts w |}))
  /\ (forall confirm : string -> bool,
      force g = false -> confirmFunc g = Some confirm ->
      confirm (targetPath g table) = false ->
      Generate g table w
      = (Some ErrSkipped,
         {| files := files w;
            prompts := (prompts w ++ [targetPath g table])%list |})
      /\ files (Generate g table w).2 !! targetPath g table = Some old)
  /\ (forall confirm : string -> bool,
      force g = false -> confirmFunc g = Some confirm ->
      confirm (targetPath g table) = true ->
      WriteFile_fails (targetPath g table) formatted (files w) = None ->
      Generate g table w
      = (None, {| files := <[targetPath g table := formatted]> (files w);
                  prompts := (prompts w ++ [targetPath g table])%list |})).
Proof.
  intros Hold Hdir Hfmt. unfold Generate. rewrite Hdir, Hfmt.
  fold (targetPath g table). rewrite Hold.
  split; [ | split].
  - intros Hforce Hwrite. rewrite Hforce. cbn [negb].
    now rewrite Hwrite.
  - intros confirm Hforce Hconf Hno. rewrite Hforce, Hconf. cbn [negb].
    rewrite Hno. cbn [negb]. split; [reflexivity | exact Hold].
  - intros confirm Hforce Hconf Hyes Hwrite. rewrite Hforce, Hconf.
    cbn [negb]. rewrite Hyes. cbn [negb files prompts].
    now rewrite Hwrite.
Qed.

(** C10.  With the target file present, [force] unset and no callback
    configured, [Generate] overwrites the file and returns [nil]
    without asking anybody; and whenever [Generate] returns
    [ErrSkipped], the file was present, [force] was unset and a
    configured callback answered [false]. *)
Theorem Generate_implicit_force
        (g : Generator) (table : Table) (w : World) :
  (forall old formatted : string,
      files w !! targetPath g table = Some old ->
      force g = false -> confirmFunc g = None ->
      MkdirAll_fails (outputDir g) (files w) = false ->
      format_Source (generateStruct g table) = Some formatted ->
      WriteFile_fails (targetPath g table) formatted (files w) = None ->
      Generate g table w
      = (None, {| files := <[targetPath g table := formatted]> (files w);
                  prompts := prompts w |}))
  /\ (forall w' : World,
      Generate g table w = (Some ErrSkipped, w') ->
      force g = false
      /\ is_Some (files w !! targetPath g table)
      /\ exists confirm : string -> bool,
          confirmFunc g = Some confirm
          /\ confirm (targetPath g table) = false).
Proof.
  split.
  - intros old formatted Hold Hforce Hconf Hdir Hfmt Hwrite.
    unfold Generate. rewrite Hdir, Hfmt. fold (targetPath g table).
    rewrite Hold, Hforce, Hconf. cbn [negb]. now rewrite Hwrite.
  - intros w'. unfold Generate.
    destruct (MkdirAll_fails (outputDir g) (files w)); [discriminate | ].
    destruct (format_Source (generateStruct g table)) as [formatted | ];
      [ | discriminate].
    fold (targetPath g table).
    assert (Hw : forall v : World,
               match WriteFile_fails (targetPath g table) formatted (files v) with
               | Some fs =>
                 (Some ErrWriteFile, {| files := fs; prompts := prompts v |})
               | None =>
                 (None, {| files := <[targetPath g table := formatted]> (files v);
                           prompts := prompts v |})
               end <> (Some ErrSkipped, w')).
    { intros v.
      destruct (WriteFile_fails (targetPath g table) formatted (files v));
        discriminate. }
    destruct (files w !! targetPath g table) as [old | ] eqn:Hold;
      [ | intros H; now apply Hw in H].
    destruct (force g); cbn [negb]; [intros H; now apply Hw in H | ].
    destruct (confirmFunc g) as [confirm | ];
      [ | intros H; now apply Hw in H].
    destruct (confirm (targetPath g table)) eqn:Hc; cbn [negb];
      [intros H; now apply Hw in H | ].
    intros _. split; [reflexivity | ]. split; [now exists old | ].
    now exists confirm.
Qed.

End Overwrite.

Lemma Generate_overwrite_policy_witness :
  @Generate plainTables forwardRun quietPlatform
            (New "models" "out" [WithConfirmFunc decline]) users existing
  = (Some ErrSkipped,
     {| files := files existing; prompts := ["out/users.go"] |}).
Proof.
  destruct (@Generate_overwrite_policy plainTables forwardRun quietPlatform
              (New "models" "out" [WithConfirmFunc decline]) users existing
              "existing content"
              (@generateStruct plainTables forwardRun
                 (New "models" "out" [WithConfirmFunc decline]) users)
              eq_refl eq_refl eq_refl) as (_ & Hdecline & _).
  exact (proj1 (Hdecline decline eq_refl eq_refl eq_refl)).
Defined.

Lemma Generate_implicit_force_witness :
  fst (@Generate plainTables forwardRun quietPlatform
                 (New "models" "out" []) users existing) = None
  /\ files (snd (@Generate plainTables forwardRun quietPlatform
                           (New "models" "out" []) users existing))
     !! "out/users.go"
     = Some (@generateStruct plainTables forwardRun
               (New "models" "out" []) users).
Proof.
  destruct (@Generate_implicit_force plainTables forwardRun quietPlatform
              (New "models" "out" []) users existing) as (Hforce & _).
  rewrite (Hforce "existing content"
             (@generateStruct plainTables forwardRun
                (New "models" "out" []) users)
             eq_refl eq_refl eq_refl eq_refl eq_refl eq_refl).
  split; [reflexivity | ]. cbn [snd files]. apply lookup_insert_eq.
Defined.

(** ** The tables of the repository's tests, replayed on the embedding *)

Section Tests.
Context {T : UnicodeTables}.

Example TestToSnakeCase :
  map toSnakeCase
      ["User"; "UserId"; "UserAccount"; "CreatedAt"; "ID"; "user";
       "userNameTest"; ""; "A"; "ABC"]
  = ["user"; "user_id"; "user_account"; "created_at"; "i_d"; "user";
     "user_name_test"; ""; "a"; "a_b_c"].
Proof. vm_compute. reflexivity. Qed.

Example TestToCamelCase :
  map toCamelCase
      ["user"; "user_id"; "user_account"; "created_at"; "id"; "USER";
       "user_name_test"; ""; "a"; "a_b_c"]
  = ["User"; "UserId"; "UserAccount"; "CreatedAt"; "Id"; "USER";
     "UserNameTest"; ""; "A"; "ABC"].
Proof. vm_compute. reflexivity. Qed.

Example TestMysqlTypeToGo :
  map (fun t => Early.mysqlTypeToGo t.1 t.2)
      [ ("tinyint", true); ("int", true); ("bigint", false);
        ("float", true); ("numeric", false); ("varchar", true);
        ("json", false); ("binary", true); ("bit", false);
        ("datetime", true); ("time", false); ("year", false);
        ("unknown_type", false); ("unknown_type", true) ]
  = [ "*int8"; "*int32"; "int64"; "*float32"; "float64"; "*string";
      "string"; "[]byte"; "[]byte"; "*time.Time"; "time.Time"; "int16";
      "string"; "*string" ].
Proof. reflexivity. Qed.

Example TestGenerateOverwritesWhenConfirmReturnsTrue :
  let g := New "models" "out" [WithConfirmFunc accept] in
  let result := @Generate T forwardRun quietPlatform g users existing in
  result.1 = None
  /\ prompts result.2 = ["out/users.go"]
  /\ files result.2 !! "out/users.go"
     = Some ("package models" +:+ nl +:+ nl +:+ "type Users struct {" +:+ nl
             +:+ tab +:+ "Id int32 `db:" +:+ dquote +:+ "id" +:+ dquote
             +:+ "`" +:+ nl +:+ "}" +:+ nl).
Proof. vm_compute. auto. Qed.

Example TestGenerateOverwritesWhenForceIsTrue :
  let g := New "models" "out" [WithForce true; WithConfirmFunc decline] in
  let result := @Generate T forwardRun quietPlatform g users existing in
  result.1 = None
  /\ prompts result.2 = []
  /\ files result.2 !! "out/users.go"
     = Some (@generateStruct T forwardRun g users).
Proof. vm_compute. auto. Qed.

End Tests.

(** * Further properties *)

(** ** Bytes, by cases *)

Ltac each_byte c :=
  destruct c as [[ | ] [ | ] [ | ] [ | ] [ | ] [ | ] [ | ] [ | ]];
  vm_compute; try reflexivity; try discriminate; try tauto; auto.

Lemma upperByte_keeps_underscore (c : ascii) :
  Ascii.eqb c "_"%char = false ->
  Ascii.eqb (strings.upperByte c) "_"%char = false.
Proof. each_byte c. Qed.

Lemma upperByte_idempotent (c : ascii) :
  strings.upperByte (strings.upperByte c) = strings.upperByte c.
Proof. each_byte c. Qed.

Lemma upperByte_ascii (c : ascii) :
  (byteZ c <? 0x80)%Z = true -> (byteZ (strings.upperByte c) <? 0x80)%Z = true.
Proof. each_byte c. Qed.

Lemma upperByte_of_lower (c : ascii) :
  strings.isLowerByte c = true ->
  isUpperByte (strings.upperByte c) = true
  /\ lowerByte (strings.upperByte c) = c
  /\ Ascii.eqb c "_"%char = false.
Proof. each_byte c. Qed.

Lemma upperByte_of_other (c : ascii) :
  strings.isLowerByte c = false -> strings.upperByte c = c.
Proof. each_byte c. Qed.

Lemma lowerByte_not_upper (c : ascii) : isUpperByte (lowerByte c) = false.
Proof. each_byte c. Qed.

Lemma lowerByte_ascii (c : ascii) :
  (byteZ c <? 0x80)%Z = true -> (byteZ (lowerByte c) <? 0x80)%Z = true.
Proof. each_byte c. Qed.

Lemma lowerByte_of_upper (c : ascii) :
  isUpperByte c = true ->
  strings.isLowerByte (lowerByte c) = true
  /\ strings.upperByte (lowerByte c) = c
  /\ Ascii.eqb (lowerByte c) "_"%char = false.
Proof. each_byte c. Qed.

Lemma lowerByte_of_other (c : ascii) :
  isUpperByte c = false -> lowerByte c = c.
Proof. each_byte c. Qed.

Lemma isPlainByte_spec (c : ascii) :
  isPlainByte c = true ->
  (byteZ c <? 0x80)%Z = true /\ isUpperByte c = false
  /\ Ascii.eqb c "_"%char = false.
Proof. each_byte c. Qed.

Lemma isLowerByte_plain (c : ascii) :
  strings.isLowerByte c = true -> isPlainByte c = true.
Proof. each_byte c. Qed.

Lemma underscore_not_upper : isUpperByte "_"%char = false.
Proof. reflexivity. Qed.

(** ** The case converters on ASCII identifiers *)

Section AsciiNames.
Context {T : UnicodeTables}.

(** Splitting on underscore and capitalizing the segments is one scan. *)
Lemma camelScan_Split (s : string) :
  exists (p : string) (ps : list string),
    strings.Split s "_"%char = p :: ps
    /\ camelScan false s = p +:+ String.concat "" (map capitalizeASCII ps)
    /\ camelScan true s
       = capitalizeASCII p +:+ String.concat "" (map capitalizeASCII ps).
Proof.
  induction s as [ | c s (p & ps & Hs & Hf & Ht)].
  - exists "", []. repeat split; reflexivity.
  - cbn [strings.Split camelScan]. destruct (Ascii.eqb c "_"%char).
    + exists "", (p :: ps). rewrite Hs. cbn [map].
      rewrite concat_cons. repeat split; exact Ht.
    + exists (String c p), ps. rewrite Hs, Hf. repeat split; reflexivity.
Qed.

Lemma toCamelCase_scan (s : string) :
  isASCII s = true -> toCamelCase s = camelScan true s.
Proof.
  intros Hs. rewrite (toCamelCase_ascii s Hs).
  destruct (camelScan_Split s) as (p & ps & -> & _ & ->).
  cbn [map]. apply concat_cons.
Qed.

Lemma camelScan_bytes (s : string) :
  forall start : bool,
    strings.allBytes (fun c => negb (Ascii.eqb c "_"%char)) (camelScan start s)
    = true
    /\ (isASCII s = true -> isASCII (camelScan start s) = true).
Proof.
  unfold isASCII.
  induction s as [ | c s IH]; intros start; [split; reflexivity | ].
  cbn [camelScan strings.allBytes].
  destruct (Ascii.eqb c "_"%char) eqn:Hc.
  - destruct (IH true) as [H1 H2]. split; [exact H1 | ].
    intros H. apply andb_true_iff in H as [_ H]. exact (H2 H).
  - destruct (IH false) as [H1 H2]. cbn [strings.allBytes]. split.
    + rewrite H1, andb_true_r. apply negb_true_iff.
      destruct start; [now apply upperByte_keeps_underscore | exact Hc].
    + intros H. apply andb_true_iff in H as [Hb H]. rewrite (H2 H), andb_true_r.
      destruct start; [now apply upperByte_ascii | exact Hb].
Qed.

Lemma camelScan_no_underscore (s : string) :
  strings.allBytes (fun c => negb (Ascii.eqb c "_"%char)) s = true ->
  camelScan false s = s.
Proof.
  induction s as [ | c s IH]; [reflexivity | ].
  cbn [strings.allBytes camelScan]. intros H.
  apply andb_true_iff in H as [Hc H]. apply negb_true_iff in Hc.
  now rewrite Hc, (IH H).
Qed.

Lemma camelScan_head (s : string) :
  camelScan true s = ""
  \/ exists c rest, camelScan true s = String (strings.upperByte c) rest
                    /\ Ascii.eqb c "_"%char = false.
Proof.
  induction s as [ | c s IH]; [now left | ].
  cbn [camelScan]. destruct (Ascii.eqb c "_"%char) eqn:Hc; [exact IH | ].
  right. now exists c, (camelScan false s).
Qed.

(** X1.  on ASCII input the result of [toCamelCase] holds no underscore
    and is ASCII again. *)
Theorem toCamelCase_drops_underscores (s : string) :
  isASCII s = true ->
  strings.allBytes (fun c => negb (Ascii.eqb c "_"%char)) (toCamelCase s) = true
  /\ isASCII (toCamelCase s) = true.
Proof.
  intros Hs. rewrite (toCamelCase_scan s Hs).
  destruct (camelScan_bytes s true) as [H1 H2]. split; [exact H1 | exact (H2 Hs)].
Qed.

(** X2.  on ASCII input [toCamelCase] is idempotent. *)
Theorem toCamelCase_idempotent (s : string) :
  isASCII s = true -> toCamelCase (toCamelCase s) = toCamelCase s.
Proof.
  intros Hs. rewrite (toCamelCase_scan s Hs).
  destruct (camelScan_bytes s true) as [Hu Ha].
  rewrite (toCamelCase_scan _ (Ha Hs)).
  destruct (camelScan_head s) as [-> | (c & rest & He & Hc)]; [reflexivity | ].
  rewrite He in Hu |- *. cbn [strings.allBytes] in Hu.
  apply andb_true_iff in Hu as [_ Hu].
  cbn [camelScan]. rewrite (upperByte_keeps_underscore c Hc).
  now rewrite upperByte_idempotent, (camelScan_no_underscore rest Hu).
Qed.

Lemma snakeLater_bytes (s : string) :
  strings.allBytes (fun c => negb (isUpperByte c)) (snakeLater s) = true
  /\ (isASCII s = true -> isASCII (snakeLater s) = true).
Proof.
  unfold isASCII. induction s as [ | c s [IH1 IH2]]; [split; reflexivity | ].
  cbn [snakeLater strings.allBytes].
  destruct (isUpperByte c) eqn:Hu; cbn [strings.allBytes].
  - rewrite IH1, lowerByte_not_upper. split; [reflexivity | ].
    intros H. apply andb_true_iff in H as [Hc H].
    now rewrite (lowerByte_ascii c Hc), (IH2 H).
  - rewrite IH1, Hu. split; [reflexivity | ].
    intros H. apply andb_true_iff in H as [Hc H]. now rewrite Hc, (IH2 H).
Qed.

Lemma snakeLater_no_upper (s : string) :
  strings.allBytes (fun c => negb (isUpperByte c)) s = true -> snakeLater s = s.
Proof.
  induction s as [ | c s IH]; [reflexivity | ].
  cbn [strings.allBytes snakeLater]. intros H.
  apply andb_true_iff in H as [Hc H]. apply negb_true_iff in Hc.
  now rewrite Hc, (IH H).
Qed.

Lemma snakeASCII_bytes (s : string) :
  strings.allBytes (fun c => negb (isUpperByte c)) (snakeASCII s) = true
  /\ (isASCII s = true -> isASCII (snakeASCII s) = true).
Proof.
  destruct s as [ | c s]; [split; reflexivity | ].
  destruct (snakeLater_bytes s) as [H1 H2]. unfold isASCII in *.
  cbn [snakeASCII strings.allBytes]. rewrite H1, lowerByte_not_upper.
  split; [reflexivity | ].
  intros H. apply andb_true_iff in H as [Hc H].
  now rewrite (lowerByte_ascii c Hc), (H2 H).
Qed.

(** X3.  on ASCII input the result of [toSnakeCase] holds no uppercase
    letter, and converting it again changes nothing. *)
Theorem toSnakeCase_lowercase (s : string) :
  isASCII s = true ->
  strings.allBytes (fun c => negb (isUpperByte c)) (toSnakeCase s) = true
  /\ toSnakeCase (toSnakeCase s) = toSnakeCase s.
Proof.
  intros Hs. rewrite (toSnakeCase_ascii s Hs).
  destruct (snakeASCII_bytes s) as [Hu Ha]. split; [exact Hu | ].
  rewrite (toSnakeCase_ascii _ (Ha Hs)).
  destruct (snakeASCII s) as [ | c r]; [reflexivity | ].
  cbn [strings.allBytes] in Hu. apply andb_true_iff in Hu as [Hc Hr].
  apply negb_true_iff in Hc. cbn [snakeASCII].
  now rewrite (lowerByte_of_other c Hc), (snakeLater_no_upper r Hr).
Qed.

(** The scan of a snake-case name, turned back. *)
Lemma snake_of_camelScan (s : string) :
  (isSnakeFrom false s = true -> snakeLater (camelScan false s) = s)
  /\ (isSnakeFrom true s = true ->
      snakeLater (camelScan true s) = String "_" s).
Proof.
  induction s as [ | c s [IHf IHt]]; [split; [reflexivity | discriminate] | ].
  cbn [isSnakeFrom camelScan].
  destruct (Ascii.eqb c "_"%char) eqn:Hc.
  - apply Ascii.eqb_eq in Hc. subst c. split; [ | discriminate].
    cbn [negb andb]. exact IHt.
  - split; intros H; apply andb_true_iff in H as [Hb H];
      cbn [snakeLater]; rewrite (IHf H).
    + destruct (isPlainByte_spec c Hb) as (_ & -> & _). reflexivity.
    + destruct (upperByte_of_lower c Hb) as (-> & -> & _). reflexivity.
Qed.

Lemma isSnakeFrom_ascii (s : string) :
  forall start : bool, isSnakeFrom start s = true -> isASCII s = true.
Proof.
  unfold isASCII.
  induction s as [ | c s IH]; intros start; [reflexivity | ].
  cbn [isSnakeFrom strings.allBytes].
  destruct (Ascii.eqb c "_"%char) eqn:Hc; intros H;
    apply andb_true_iff in H as [Hb H]; rewrite (IH _ H), andb_true_r.
  - apply Ascii.eqb_eq in Hc. now subst c.
  - destruct start; [apply isLowerByte_plain in Hb | ];
      now destruct (isPlainByte_spec c Hb) as (-> & _).
Qed.

(** X4.  a snake-case name survives the round trip through
    [toCamelCase] and back through [toSnakeCase]. *)
Theorem snake_name_round_trip (s : string) :
  isSnakeName s = true -> toSnakeCase (toCamelCase s) = s.
Proof.
  intros Hs.
  pose proof (isSnakeFrom_ascii s true Hs) as Ha.
  rewrite (toCamelCase_scan s Ha).
  destruct (camelScan_bytes s true) as [_ Hasc].
  rewrite (toSnakeCase_ascii _ (Hasc Ha)).
  unfold isSnakeName in Hs.
  destruct s as [ | c s]; [discriminate | ].
  cbn [isSnakeFrom] in Hs. cbn [camelScan].
  destruct (Ascii.eqb c "_"%char) eqn:Hc; [discriminate | ].
  apply andb_true_iff in Hs as [Hb Hs]. cbn [snakeASCII].
  destruct (upperByte_of_lower c Hb) as (_ & -> & _).
  now rewrite (proj1 (snake_of_camelScan s) Hs).
Qed.

(** The scan of what [toSnakeCase] makes of a name without underscore. *)
Lemma camelScan_of_snakeLater (s : string) :
  strings.allBytes
    (fun c => (byteZ c <? 0x80)%Z && negb (Ascii.eqb c "_"%char)) s = true ->
  camelScan false (snakeLater s) = s.
Proof.
  induction s as [ | c s IH]; [reflexivity | ].
  cbn [strings.allBytes snakeLater]. intros H.
  apply andb_true_iff in H as [Hc H]. apply andb_true_iff in Hc as [_ Hc].
  apply negb_true_iff in Hc.
  destruct (isUpperByte c) eqn:Hu.
  - destruct (lowerByte_of_upper c Hu) as (_ & Hup & Hne).
    cbn [camelScan]. change (Ascii.eqb "_" "_") with true. cbn [camelScan].
    now rewrite Hne, Hup, (IH H).
  - cbn [camelScan]. now rewrite Hc, (IH H).
Qed.

(** X5.  a Pascal-case name survives the round trip through
    [toSnakeCase] and back through [toCamelCase]. *)
Theorem pascal_name_round_trip (t : string) :
  isPascalName t = true -> toCamelCase (toSnakeCase t) = t.
Proof.
  intros Hp. unfold isPascalName in Hp. apply andb_true_iff in Hp as [Hb Hh].
  assert (Ha : isASCII t = true).
  { unfold isASCII. eapply allBytes_impl; [ | exact Hb].
    intros c Hc. now apply andb_true_iff in Hc as [-> _]. }
  rewrite (toSnakeCase_ascii t Ha).
  destruct (snakeASCII_bytes t) as [_ Hasc].
  rewrite (toCamelCase_scan _ (Hasc Ha)).
  destruct t as [ | c t]; [reflexivity | ].
  cbn [strings.allBytes] in Hb. apply andb_true_iff in Hb as [Hc Hb].
  apply andb_true_iff in Hc as [_ Hc]. apply negb_true_iff in Hc, Hh.
  cbn [snakeASCII camelScan].
  rewrite (camelScan_of_snakeLater t Hb).
  destruct (isUpperByte c) eqn:Hu.
  - destruct (lowerByte_of_upper c Hu) as (_ & -> & ->). reflexivity.
  - rewrite (lowerByte_of_other c Hu), Hc.
    now rewrite (upperByte_of_other c Hh).
Qed.

End AsciiNames.

Lemma toCamelCase_drops_underscores_witness :
  isASCII "__user__id_" = true
  /\ @toCamelCase plainTables "__user__id_" = "UserId".
Proof.
  split; [reflexivity | ].
  destruct (@toCamelCase_drops_underscores plainTables "__user__id_" eq_refl)
    as [_ _].
  reflexivity.
Defined.

Lemma toCamelCase_idempotent_witness :
  @toCamelCase plainTables (@toCamelCase plainTables "created_at")
  = @toCamelCase plainTables "created_at".
Proof. exact (@toCamelCase_idempotent plainTables "created_at" eq_refl). Defined.

Lemma toSnakeCase_lowercase_witness :
  @toSnakeCase plainTables (@toSnakeCase plainTables "HTTPServer")
  = @toSnakeCase plainTables "HTTPServer".
Proof.
  exact (proj2 (@toSnakeCase_lowercase plainTables "HTTPServer" eq_refl)).
Defined.

Lemma snake_name_round_trip_witness :
  isSnakeName "user_accounts" = true
  /\ @toSnakeCase plainTables (@toCamelCase plainTables "user_accounts")
     = "user_accounts".
Proof.
  split; [reflexivity | ].
  exact (@snake_name_round_trip plainTables "user_accounts" eq_refl).
Defined.

Lemma pascal_name_round_trip_witness :
  isPascalName "UserAccounts" = true
  /\ @toCamelCase plainTables (@toSnakeCase plainTables "UserAccounts")
     = "UserAccounts".
Proof.
  split; [reflexivity | ].
  exact (@pascal_name_round_trip plainTables "UserAccounts" eq_refl).
Defined.

(** ** More on the type mapper and the emitter *)

Lemma goType_signedness (dataType : string) :
  ~ In dataType integerFamily -> goType dataType true = goType dataType false.
Proof.
  intros Hout. unfold goType.
  repeat match goal with
  | |- context [oneOf dataType ?cs] =>
    let E := fresh "E" in
    destruct (oneOf dataType cs) eqn:E;
    [ try reflexivity;
      exfalso; apply oneOf_true in E; apply Hout;
      unfold integerFamily; simpl in E |- *; tauto | ]
  end.
  reflexivity.
Qed.

(** X6.  the unsigned flag changes the result exactly on the integer
    family (the integer types and year), where it puts a [u] in front of
    the type name; on every other raw type it is ignored. *)
Theorem mysqlTypeToGo_unsigned_scope (dataType : string) :
  (In dataType integerFamily ->
   mysqlTypeToGo dataType false true
     = "u" +:+ mysqlTypeToGo dataType false false
   /\ mysqlTypeToGo dataType true true
     = "*u" +:+ mysqlTypeToGo dataType false false)
  /\ (~ In dataType integerFamily ->
      forall nullable : bool,
        mysqlTypeToGo dataType nullable true
        = mysqlTypeToGo dataType nullable false).
Proof.
  split.
  - intros H. unfold integerFamily in H. simpl in H.
    repeat (destruct H as [<- | H]; [split; reflexivity | ]). contradiction.
  - intros H nullable. unfold mysqlTypeToGo.
    now rewrite (goType_signedness dataType H).
Qed.

Lemma mysqlTypeToGo_unsigned_scope_witness :
  mysqlTypeToGo "year" true true = "*uint16"
  /\ mysqlTypeToGo "decimal" true true = mysqlTypeToGo "decimal" true false.
Proof.
  split.
  - apply (proj1 (mysqlTypeToGo_unsigned_scope "year")).
    unfold integerFamily. simpl. tauto.
  - apply (proj2 (mysqlTypeToGo_unsigned_scope "decimal")).
    unfold integerFamily. simpl. intuition discriminate.
Defined.

Lemma goType_time (dataType : string) (unsigned : bool) :
  goType dataType unsigned = "time.Time" <-> In dataType timestampFamily.
Proof.
  split.
  - unfold goType, timestampFamily.
    repeat match goal with
    | |- context [oneOf dataType ?cs] =>
      let E := fresh "E" in
      destruct (oneOf dataType cs) eqn:E;
      [ try (destruct unsigned; discriminate);
        try (intros _; apply oneOf_true in E; simpl in E |- *; tauto) | ]
    end.
    discriminate.
  - intros H. unfold timestampFamily in H. simpl in H.
    repeat (destruct H as [<- | H]; [reflexivity | ]). contradiction.
Qed.

Lemma mysqlTypeToGo_time (dataType : string) (nullable unsigned : bool) :
  In (mysqlTypeToGo dataType nullable unsigned) ["time.Time"; "*time.Time"]
  <-> In dataType timestampFamily.
Proof.
  rewrite <- (goType_time dataType unsigned).
  destruct nullable.
  - rewrite mysqlTypeToGo_nullable.
    pose proof (goType_range dataType unsigned) as Hr. simpl in Hr.
    repeat (destruct Hr as [<- | Hr];
            [vm_compute; intuition discriminate | ]).
    contradiction.
  - rewrite mysqlTypeToGo_not_nullable. simpl.
    pose proof (goType_range dataType unsigned) as Hr. simpl in Hr.
    repeat (destruct Hr as [<- | Hr];
            [vm_compute; intuition discriminate | ]).
    contradiction.
Qed.

Section EmitterMore.
Context {T : UnicodeTables} {R : GoRuntime}.

(** X7.  the emitted file imports [time] exactly when one of its fields
    has the type [time.Time] or [*time.Time], and it imports nothing
    else. *)
Theorem time_import_iff_used (table : Table) :
  mapKeys_spec R ->
  (In "time" (collectImports table) <->
   exists col : Column,
     In col (Columns table)
     /\ In (mysqlTypeToGo (DataType col) (IsNullable col) (IsUnsigned col))
           ["time.Time"; "*time.Time"])
  /\ (forall imp : string, In imp (collectImports table) -> imp = "time").
Proof.
  intros HR. rewrite (collectImports_spec R table HR).
  destruct (existsb (fun col => oneOf (DataType col) timestampFamily)
                    (Columns table)) eqn:He.
  - split; [ | intros imp [<- | []]; reflexivity].
    split; [intros _ | intros _; now left].
    apply existsb_exists in He as (col & Hin & Hc).
    exists col. split; [exact Hin | ].
    apply mysqlTypeToGo_time. now apply oneOf_true.
  - split; [ | intros imp []].
    split; [intros [] | ].
    intros (col & Hin & Hc). apply mysqlTypeToGo_time in Hc.
    assert (Ht : existsb (fun col => oneOf (DataType col) timestampFamily)
                         (Columns table) = true).
    { apply existsb_exists. exists col. split; [exact Hin | ].
      now apply oneOf_true. }
    congruence.
Qed.

(** X8.  a table without columns gives the package clause and an empty
    struct, with no import block. *)
Theorem generateStruct_no_columns (g : Generator) (table : Table) :
  mapKeys_spec R -> Columns table = [] ->
  generateStruct g table
  = "package " +:+ packageName g +:+ nl +:+ nl
    +:+ "type " +:+ toCamelCase (TableName table) +:+ " struct {" +:+ nl
    +:+ "}" +:+ nl.
Proof.
  intros HR Hc. rewrite generateStruct_declaration.
  rewrite (collectImports_spec R table HR). unfold declaration. rewrite Hc.
  cbn [existsb map importBlock String.concat]. now rewrite !append_nil_l.
Qed.

End EmitterMore.

Lemma time_import_iff_used_witness :
  mapKeys_spec forwardRun /\ In "time" (@collectImports forwardRun events).
Proof.
  split; [exact forwardRun_spec | ].
  apply (proj1 (@time_import_iff_used forwardRun events forwardRun_spec)).
  exists (column "ended_at" "datetime" true false).
  split; [now left | right; now left].
Defined.

Lemma generateStruct_no_columns_witness :
  mapKeys_spec forwardRun
  /\ @generateStruct plainTables forwardRun (New "models" "out" [])
       {| TableName := "empty_table"; Columns := [] |}
     = "package models" +:+ nl +:+ nl +:+ "type EmptyTable struct {" +:+ nl
       +:+ "}" +:+ nl.
Proof.
  split; [exact forwardRun_spec | ].
  exact (@generateStruct_no_columns plainTables forwardRun
           (New "models" "out" [])
           {| TableName := "empty_table"; Columns := [] |}
           forwardRun_spec eq_refl).
Defined.

(** ** More on [New] and [Generate] *)

Lemma apply_settings (os : list Setting) :
  forall g : Generator,
    fold_left (fun g opt => opt g) (map optionOf os) g
    = {| packageName := packageName g; outputDir := outputDir g;
         force := lastForce os (force g);
         confirmFunc := lastConfirm os (confirmFunc g) |}.
Proof.
  induction os as [ | o os IH]; intros g; cbn [map fold_left].
  - now destruct g.
  - rewrite IH. now destruct o.
Qed.

(** X9.  [New] applies its options from left to right: the package name
    and the output directory are the ones given, the force flag is that
    of the last [WithForce] ([false] without one) and the callback that
    of the last [WithConfirmFunc] (none without one). *)
Theorem New_settings (pkg dir : string) (os : list Setting) :
  New pkg dir (map optionOf os)
  = {| packageName := pkg; outputDir := dir;
       force := lastForce os false; confirmFunc := lastConfirm os None |}.
Proof. unfold New. now rewrite apply_settings. Qed.

Section GenerateMore.
Context {T : UnicodeTables} {R : GoRuntime} {P : Platform}.

(** Every way [Generate] can end. *)
Lemma Generate_cases (g : Generator) (table : Table) (w : World) :
  let code := generateStruct g table in
  let path := targetPath g table in
  (MkdirAll_fails (outputDir g) (files w) = true
   /\ Generate g table w = (Some ErrCreateDir, w))
  \/ (MkdirAll_fails (outputDir g) (files w) = false
      /\ format_Source code = None
      /\ Generate g table w = (Some (ErrFormat code), w))
  \/ exists formatted : string,
      MkdirAll_fails (outputDir g) (files w) = false
      /\ format_Source code = Some formatted
      /\ ((exists (old : string) (confirm : string -> bool),
             files w !! path = Some old /\ force g = false
             /\ confirmFunc g = Some confirm /\ confirm path = false
             /\ Generate g table w
                = (Some ErrSkipped,
                   {| files := files w;
                      prompts := (prompts w ++ [path])%list |}))
          \/ exists ps : list string,
              (exists fs : gmap string string,
                  WriteFile_fails path formatted (files w) = Some fs
                  /\ Generate g table w
                     = (Some ErrWriteFile, {| files := fs; prompts := ps |}))
              \/ (WriteFile_fails path formatted (files w) = None
                  /\ Generate g table w
                     = (None, {| files := <[path := formatted]> (files w);
                                 prompts := ps |}))).
Proof.
  cbv zeta. unfold Generate.
  destruct (MkdirAll_fails (outputDir g) (files w)); [now left | right].
  destruct (format_Source (generateStruct g table)) as [formatted | ];
    [right; exists formatted | now left].
  fold (targetPath g table). split; [reflexivity | ]. split; [reflexivity | ].
  assert (Hw : forall ps : list string,
             let v := {| files := files w; prompts := ps |} in
             (exists fs : gmap string string,
                 WriteFile_fails (targetPath g table) formatted (files w) = Some fs
                 /\ match WriteFile_fails (targetPath g table) formatted
                             (files v) with
                    | Some fs =>
                      (Some ErrWriteFile,
                       {| files := fs; prompts := prompts v |})
                    | None =>
                      (None,
                       {| files := <[targetPath g table := formatted]> (files v);
                          prompts := prompts v |})
                    end = (Some ErrWriteFile, {| files := fs; prompts := ps |}))
             \/ (WriteFile_fails (targetPath g table) formatted (files w) = None
                 /\ match WriteFile_fails (targetPath g table) formatted
                             (files v) with
                    | Some fs =>
                      (Some ErrWriteFile,
                       {| files := fs; prompts := prompts v |})
                    | None =>
                      (None,
                       {| files := <[targetPath g table := formatted]> (files v);
                          prompts := prompts v |})
                    end
                    = (None,
                       {| files := <[targetPath g table := formatted]> (files w);
                          prompts := ps |}))).
  { intros ps. cbn [files prompts].
    destruct (WriteFile_fails (targetPath g table) formatted (files w)) as [fs | ];
      [left; now exists fs | now right]. }
  assert (Hsame : forall ps : list string,
             ps = prompts w ->
             {| files := files w; prompts := ps |} = w).
  { intros ps ->. now destruct w. }
  destruct (files w !! targetPath g table) as [old | ];
    [ | right; exists (prompts w);
        specialize (Hw (prompts w)); cbv zeta in Hw;
        now rewrite (Hsame _ eq_refl) in Hw].
  destruct (force g); cbn [negb];
    [right; exists (prompts w);
     specialize (Hw (prompts w)); cbv zeta in Hw;
     now rewrite (Hsame _ eq_refl) in Hw | ].
  destruct (confirmFunc g) as [confirm | ];
    [ | right; exists (prompts w);
        specialize (Hw (prompts w)); cbv zeta in Hw;
        now rewrite (Hsame _ eq_refl) in Hw].
  destruct (confirm (targetPath g table)) eqn:Hc; cbn [negb].
  - right. exists (prompts w ++ [targetPath g table])%list. apply Hw.
  - left. now exists old, confirm.
Qed.

(** X10.  when [Generate] returns [nil], the output directory was there
    or could be created, the formatter accepted the generated text,
    [os.WriteFile] succeeded, and the target file now holds the
    formatted text. *)
Theorem Generate_nil_means_written
        (g : Generator) (table : Table) (w w' : World) :
  Generate g table w = (None, w') ->
  exists formatted : string,
    MkdirAll_fails (outputDir g) (files w) = false
    /\ format_Source (generateStruct g table) = Some formatted
    /\ WriteFile_fails (targetPath g table) formatted (files w) = None
    /\ files w' !! targetPath g table = Some formatted.
Proof.
  intros H.
  destruct (Generate_cases g table w)
    as [[_ E] | [(_ & _ & E) | (formatted & Hd & Hf & Hrest)]];
    cbv zeta in *; try congruence.
  destruct Hrest as [(old & confirm & _ & _ & _ & _ & E)
                    | (ps & [(fs & _ & E) | (Hw & E)])];
    try congruence.
  rewrite E in H. injection H as <-. exists formatted. cbn [files].
  repeat split; try assumption. apply lookup_insert_eq.
Qed.

(** X11.  what each error of [Generate] means for the target file and
    the callback.  [ErrCreateDir]: [os.MkdirAll] failed; nobody was
    asked and the target file is as before.  [ErrFormat]: the error
    carries the unformatted text of [generateStruct], which the
    formatter rejected; nobody was asked and the target file is as
    before.  [ErrSkipped]: the target file existed, [force] was unset,
    the callback was asked about the target path and answered [false],
    and the target file holds what it held.  [ErrWriteFile]: the
    formatter accepted the text and [os.WriteFile] returned an error. *)
Theorem Generate_error_meaning
        (g : Generator) (table : Table) (w w' : World) (e : error) :
  Generate g table w = (Some e, w') ->
  match e with
  | ErrCreateDir =>
    MkdirAll_fails (outputDir g) (files w) = true
    /\ prompts w' = prompts w
    /\ files w' !! targetPath g table = files w !! targetPath g table
  | ErrFormat code =>
    code = generateStruct g table /\ format_Source code = None
    /\ prompts w' = prompts w
    /\ files w' !! targetPath g table = files w !! targetPath g table
  | ErrSkipped =>
    exists (old : string) (confirm : string -> bool),
      files w !! targetPath g table = Some old
      /\ force g = false /\ confirmFunc g = Some confirm
      /\ confirm (targetPath g table) = false
      /\ prompts w' = (prompts w ++ [targetPath g table])%list
      /\ files w' !! targetPath g table = Some old
  | ErrWriteFile =>
    exists formatted : string,
      format_Source (generateStruct g table) = Some formatted
      /\ WriteFile_fails (targetPath g table) formatted (files w) <> None
  end.
Proof.
  intros H.
  destruct (Generate_cases g table w)
    as [[Hd E] | [(_ & Hf & E) | (formatted & _ & Hf & Hrest)]];
    cbv zeta in *.
  - rewrite E in H. injection H as <- <-. now repeat split.
  - rewrite E in H. injection H as <- <-. now repeat split.
  - destruct Hrest as [(old & confirm & Ho & Hfo & Hc & Hn & E)
                      | (ps & [(fs & Hfs & E) | (_ & E)])];
      rewrite E in H; [ | | discriminate].
    + injection H as <- <-. exists old, confirm. cbn [files prompts].
      now repeat split.
    + injection H as <- <-. exists formatted. split; [exact Hf | ].
      now rewrite Hfs.
Qed.

Lemma Generate_prompts (g : Generator) (table : Table) (w : World) :
  prompts (Generate g table w).2
  = if negb (MkdirAll_fails (outputDir g) (files w))
       && present (format_Source (generateStruct g table))
       && present (files w !! targetPath g table)
       && negb (force g) && present (confirmFunc g)
    then (prompts w ++ [targetPath g table])%list
    else prompts w.
Proof.
  unfold Generate.
  destruct (MkdirAll_fails (outputDir g) (files w)); [reflexivity | ].
  destruct (format_Source (generateStruct g table)) as [formatted | ];
    [ | reflexivity].
  fold (targetPath g table). cbn [negb present andb].
  assert (Hw : forall v : World,
             prompts (match WriteFile_fails (targetPath g table) formatted
                              (files v) with
                      | Some fs =>
                        (Some ErrWriteFile,
                         {| files := fs; prompts := prompts v |})
                      | None =>
                        (None,
                         {| files := <[targetPath g table := formatted]> (files v);
                            prompts := prompts v |})
                      end).2 = prompts v).
  { intros v.
    now destruct (WriteFile_fails (targetPath g table) formatted (files v)). }
  destruct (files w !! targetPath g table); cbn [present andb];
    [ | apply Hw].
  destruct (force g); cbn [negb andb]; [apply Hw | ].
  destruct (confirmFunc g) as [confirm | ]; cbn [present]; [ | apply Hw].
  destruct (confirm (targetPath g table)); cbn [negb];
    [rewrite Hw | ]; reflexivity.
Qed.

(** X12.  [Generate] asks the callback at most once, only about the target
    path, and exactly when the directory could be created, the
    formatter accepted the text, the target exists, [force] is unset
    and a callback is configured. *)
Theorem Generate_asks_when (g : Generator) (table : Table) (w : World) :
  prompts (Generate g table w).2
  = if negb (MkdirAll_fails (outputDir g) (files w))
       && present (format_Source (generateStruct g table))
       && present (files w !! targetPath g table)
       && negb (force g) && present (confirmFunc g)
    then (prompts w ++ [targetPath g table])%list
    else prompts w.
Proof. exact (Generate_prompts g table w). Qed.

(** X13.  with [force] set, on a platform where creating the directory
    and writing the target succeed, running [Generate] twice leaves the
    world exactly as running it once, and both runs return [nil]. *)
Theorem Generate_force_twice
        (g : Generator) (table : Table) (w : World) (formatted : string) :
  force g = true ->
  (forall fs, MkdirAll_fails (outputDir g) fs = false) ->
  format_Source (generateStruct g table) = Some formatted ->
  (forall fs, WriteFile_fails (targetPath g table) formatted fs = None) ->
  let first := Generate g table w in
  let second := Generate g table first.2 in
  first.1 = None /\ second.1 = None /\ second.2 = first.2
  /\ files first.2 !! targetPath g table = Some formatted.
Proof.
  intros Hforce Hdir Hfmt Hwrite.
  assert (Hrun : forall v : World,
             Generate g table v
             = (None, {| files := <[targetPath g table := formatted]> (files v);
                         prompts := prompts v |})).
  { intros v. unfold Generate. rewrite Hdir, Hfmt. fold (targetPath g table).
    rewrite Hforce. cbn [negb]. rewrite !Hwrite.
    now destruct (files v !! targetPath g table). }
  cbv zeta. rewrite (Hrun w). cbn [fst snd]. rewrite Hrun. cbn [fst snd files prompts].
  rewrite insert_insert_eq. repeat split. apply lookup_insert_eq.
Qed.

(** X14.  with [force] unset and a callback, a first run on a missing
    target writes it without asking; the next run finds it and asks
    once, and when the answer is [false] it returns [ErrSkipped] and the
    file keeps the text of the first run. *)
Theorem Generate_second_run_asks
        (g : Generator) (table : Table) (w : World) (formatted : string)
        (confirm : string -> bool) :
  force g = false -> confirmFunc g = Some confirm ->
  files w !! targetPath g table = None ->
  (forall fs, MkdirAll_fails (outputDir g) fs = false) ->
  format_Source (generateStruct g table) = Some formatted ->
  WriteFile_fails (targetPath g table) formatted (files w) = None ->
  let first := Generate g table w in
  let second := Generate g table first.2 in
  first.1 = None /\ prompts first.2 = prompts w
  /\ prompts second.2 = (prompts w ++ [targetPath g table])%list
  /\ (confirm (targetPath g table) = false ->
      second.1 = Some ErrSkipped
      /\ files second.2 !! targetPath g table = Some formatted).
Proof.
  intros Hforce Hconf Hnew Hdir Hfmt Hwrite. cbv zeta.
  assert (H1 : Generate g table w
               = (None, {| files := <[targetPath g table := formatted]> (files w);
                           prompts := prompts w |})).
  { unfold Generate. rewrite Hdir, Hfmt. fold (targetPath g table).
    now rewrite Hnew, Hwrite. }
  rewrite H1. cbn [fst snd prompts]. split; [reflexivity | ].
  split; [reflexivity | ].
  rewrite Generate_prompts. cbn [files prompts].
  rewrite Hdir, Hfmt, Hforce, Hconf, lookup_insert_eq. cbn [negb present andb].
  split; [reflexivity | ].
  intros Hno. unfold Generate. cbn [files prompts].
  rewrite Hdir, Hfmt. fold (targetPath g table).
  rewrite lookup_insert_eq, Hforce, Hconf. cbn [negb]. rewrite Hno.
  cbn [negb fst snd files]. split; [reflexivity | apply lookup_insert_eq].
Qed.

End GenerateMore.

Lemma Generate_nil_means_written_witness :
  exists formatted : string,
    @format_Source quietPlatform
      (@generateStruct plainTables forwardRun (New "models" "out" []) users)
    = Some formatted
    /\ files (@Generate plainTables forwardRun quietPlatform
                (New "models" "out" []) users existing).2
       !! "out/users.go" = Some formatted.
Proof.
  destruct (@Generate_nil_means_written plainTables forwardRun quietPlatform
              (New "models" "out" []) users existing
              (@Generate plainTables forwardRun quietPlatform
                 (New "models" "out" []) users existing).2 eq_refl)
    as (formatted & _ & Hf & _ & Hl).
  exists formatted. split; [exact Hf | exact Hl].
Defined.

Lemma Generate_error_meaning_witness :
  @Generate plainTables forwardRun strictPlatform
    (New "models" "out" []) users existing
  = (Some (ErrFormat (@generateStruct plainTables forwardRun
                        (New "models" "out" []) users)), existing)
  /\ @format_Source strictPlatform
       (@generateStruct plainTables forwardRun (New "models" "out" []) users)
     = None.
Proof.
  split; [reflexivity | ].
  exact (proj1 (proj2
    (@Generate_error_meaning plainTables forwardRun strictPlatform
       (New "models" "out" []) users existing existing
       (ErrFormat (@generateStruct plainTables forwardRun
                     (New "models" "out" []) users)) eq_refl))).
Defined.

Lemma Generate_force_twice_witness :
  (@Generate plainTables forwardRun quietPlatform
     (New "models" "out" [WithForce true]) users
     (@Generate plainTables forwardRun quietPlatform
        (New "models" "out" [WithForce true]) users existing).2).2
  = (@Generate plainTables forwardRun quietPlatform
       (New "models" "out" [WithForce true]) users existing).2.
Proof.
  exact (proj1 (proj2 (proj2
    (@Generate_force_twice plainTables forwardRun quietPlatform
       (New "models" "out" [WithForce true]) users existing
       (@generateStruct plainTables forwardRun
          (New "models" "out" [WithForce true]) users)
       eq_refl (fun _ => eq_refl) eq_refl (fun _ => eq_refl))))).
Defined.

Lemma Generate_second_run_asks_witness :
  (@Generate plainTables forwardRun quietPlatform
     (New "models" "out" [WithConfirmFunc decline]) users
     (@Generate plainTables forwardRun quietPlatform
        (New "models" "out" [WithConfirmFunc decline]) users blank).2).1
  = Some ErrSkipped.
Proof.
  exact (proj1 (proj2 (proj2 (proj2
    (@Generate_second_run_asks plainTables forwardRun quietPlatform
       (New "models" "out" [WithConfirmFunc decline]) users blank
       (@generateStruct plainTables forwardRun
          (New "models" "out" [WithConfirmFunc decline]) users)
       decline eq_refl eq_refl eq_refl (fun _ => eq_refl) eq_refl eq_refl)))
    eq_refl)).
Defined.

(** ** The first revision *)

Lemma addIf_merge (b1 b2 c1 c2 : bool) (m : gmap string bool) :
  addIf b2 "database/sql" (addIf b1 "time"
    (addIf c2 "database/sql" (addIf c1 "time" m)))
  = addIf (c2 || b2) "database/sql" (addIf (c1 || b1) "time" m).
Proof.
  assert (Hne : "time" <> "database/sql") by discriminate.
  unfold addIf. destruct b1, b2, c1, c2; cbn [orb]; try reflexivity;
    rewrite ?insert_insert_eq; try reflexivity;
    repeat (rewrite (insert_insert_ne _ "time" "database/sql") by exact Hne;
            rewrite ?insert_insert_eq); reflexivity.
Qed.

Lemma Early_imports_fold (cols : list Column) :
  forall m : gmap string bool,
    fold_left
      (fun (imports : gmap string bool) col =>
         let imports :=
           if oneOf (DataType col) ["datetime"; "timestamp"; "date"; "time"]
           then <["time" := true]> imports
           else imports in
         if IsNullable col then
           if oneOf (DataType col) ["datetime"; "timestamp"; "date"; "time"]
           then <["database/sql" := true]> imports
           else imports
         else imports)
      cols m
    = addIf (existsb isNullableTimestamp cols) "database/sql"
        (addIf (existsb isTimestamp cols) "time" m).
Proof.
  induction cols as [ | col cols IH]; intros m; cbn [fold_left existsb];
    [reflexivity | ].
  rewrite IH. fold timestampFamily.
  replace (if oneOf (DataType col) timestampFamily
           then <["time" := true]> m else m)
    with (addIf (isTimestamp col) "time" m) by reflexivity.
  replace (if IsNullable col
           then if oneOf (DataType col) timestampFamily
                then <["database/sql" := true]> (addIf (isTimestamp col) "time" m)
                else addIf (isTimestamp col) "time" m
           else addIf (isTimestamp col) "time" m)
    with (addIf (isNullableTimestamp col) "database/sql"
            (addIf (isTimestamp col) "time" m))
    by (unfold isNullableTimestamp, addIf at 1;
        now destruct (IsNullable col), (oneOf (DataType col) timestampFamily)).
  apply addIf_merge.
Qed.

Section FirstRevision.
Context {T : UnicodeTables} {R : GoRuntime} {P : Platform}.

Lemma Early_imports_perm (table : Table) :
  mapKeys_spec R ->
  Permutation (Early.collectImports table)
    ((if existsb isTimestamp (Columns table) then ["time"] else [])
     ++ (if existsb isNullableTimestamp (Columns table)
         then ["database/sql"] else [])).
Proof.
  intros HR. unfold Early.collectImports. rewrite append_loop. cbn [app].
  rewrite Early_imports_fold. rewrite (HR _). unfold addIf.
  destruct (existsb isTimestamp (Columns table)),
           (existsb isNullableTimestamp (Columns table)); cbn [app].
  - rewrite map_to_list_insert
      by (rewrite insert_empty; now apply lookup_singleton_ne).
    rewrite insert_empty, map_to_list_singleton. cbn [map fst].
    apply perm_swap.
  - now rewrite insert_empty, map_to_list_singleton.
  - now rewrite insert_empty, map_to_list_singleton.
  - now rewrite map_to_list_empty.
Qed.

(** X15.  the import list of the first revision holds [time] exactly when
    some column is of the timestamp family, [database/sql] exactly when
    some such column is nullable, each once and nothing else; only the
    order is left to the map range. *)
Theorem Early_collectImports_contents (table : Table) :
  mapKeys_spec R ->
  Permutation (Early.collectImports table)
    ((if existsb isTimestamp (Columns table) then ["time"] else [])
     ++ (if existsb isNullableTimestamp (Columns table)
         then ["database/sql"] else []))
  /\ NoDup (Early.collectImports table).
Proof.
  intros HR. pose proof (Early_imports_perm table HR) as Hp.
  split; [exact Hp | ].
  rewrite Hp.
  destruct (existsb isTimestamp (Columns table)),
           (existsb isNullableTimestamp (Columns table)); cbn [app];
    repeat (apply NoDup_cons_2); try apply NoDup_nil_2;
    rewrite ?list_elem_of_In; simpl; intuition discriminate.
Qed.

Lemma Early_mysqlTypeToGo_range (dataType : string) (nullable : bool) :
  In (Early.mysqlTypeToGo dataType nullable)
     ["int8"; "int16"; "int32"; "int64"; "float32"; "float64"; "string";
      "[]byte"; "time.Time";
      "*int8"; "*int16"; "*int32"; "*int64"; "*float32"; "*float64";
      "*string"; "*time.Time"].
Proof.
  rewrite Early_mysqlTypeToGo_signed.
  assert (Hs : In (goType dataType false)
                 ["[]byte"; "int8"; "int16"; "int32"; "int64";
                  "float32"; "float64"; "string"; "time.Time"]).
  { unfold goType.
    repeat match goal with
    | |- context [oneOf dataType ?cs] => destruct (oneOf dataType cs)
    end; simpl; tauto. }
  destruct nullable.
  - rewrite mysqlTypeToGo_nullable. simpl in Hs.
    repeat (destruct Hs as [<- | Hs]; [vm_compute; tauto | ]). contradiction.
  - rewrite mysqlTypeToGo_not_nullable. simpl in Hs.
    repeat (destruct Hs as [<- | Hs]; [simpl; tauto | ]). contradiction.
Qed.

(** X16.  in the first revision a nullable timestamp column brings the
    import [database/sql] into the file, while no field type the
    mapper can return mentions the package [sql]: the import is never
    used. *)
Theorem Early_sql_import_unused (table : Table) :
  mapKeys_spec R ->
  (existsb isNullableTimestamp (Columns table) = true ->
   In "database/sql" (Early.collectImports table))
  /\ (forall (dataType : string) (nullable : bool),
        String.index 0 "sql" (Early.mysqlTypeToGo dataType nullable) = None).
Proof.
  intros HR. split.
  - intros He.
    apply (Permutation_in _ (Permutation_sym
             (Early_imports_perm table HR))).
    rewrite He. apply in_or_app. right. now left.
  - intros dataType nullable.
    pose proof (Early_mysqlTypeToGo_range dataType nullable) as Hr.
    simpl in Hr.
    repeat (destruct Hr as [<- | Hr]; [reflexivity | ]). contradiction.
Qed.

End FirstRevision.

Section Revisions.
Context {T : UnicodeTables} {R : GoRuntime} {P : Platform}.

Lemma Early_type_agrees (col : Column) :
  (IsUnsigned col = true -> ~ In (DataType col) integerFamily) ->
  Early.mysqlTypeToGo (DataType col) (IsNullable col)
  = mysqlTypeToGo (DataType col) (IsNullable col) (IsUnsigned col).
Proof.
  intros H. rewrite Early_mysqlTypeToGo_signed.
  destruct (IsUnsigned col); [ | reflexivity].
  unfold mysqlTypeToGo. now rewrite (goType_signedness _ (H eq_refl)).
Qed.

Lemma Early_writeField_loop (cols : list Column) :
  Forall (fun col => IsUnsigned col = true -> ~ In (DataType col) integerFamily)
         cols ->
  forall buf : string,
    fold_left EarlyRun.writeField cols buf = fold_left writeField cols buf.
Proof.
  induction 1 as [ | col cols Hc _ IH]; intros buf; [reflexivity | ].
  cbn [fold_left]. rewrite IH. f_equal.
  unfold EarlyRun.writeField, writeField. now rewrite (Early_type_agrees col Hc).
Qed.

(** X17.  on a table where no timestamp column is nullable and the
    unsigned flag is set on no column of the integer family, the first
    revision emits the same text as the current one. *)
Theorem revisions_emit_same_text
        (ge : EarlyRun.Generator) (g : Generator) (table : Table) :
  mapKeys_spec R ->
  EarlyRun.packageName ge = packageName g ->
  existsb isNullableTimestamp (Columns table) = false ->
  Forall (fun col => IsUnsigned col = true -> ~ In (DataType col) integerFamily)
         (Columns table) ->
  EarlyRun.generateStruct ge table = generateStruct g table.
Proof.
  intros HR Hpkg Hn Hu.
  assert (Hi : Early.collectImports table = collectImports table).
  { pose proof (Early_imports_perm table HR) as Hp. rewrite Hn in Hp.
    rewrite (collectImports_spec R table HR).
    fold isTimestamp.
    change (fun col => oneOf (DataType col) timestampFamily) with isTimestamp.
    destruct (existsb isTimestamp (Columns table)); cbn [app] in Hp.
    - now apply Permutation_singleton_r in Hp.
    - now apply Permutation_nil_r in Hp. }
  unfold EarlyRun.generateStruct, generateStruct.
  now rewrite Hpkg, Hi, (Early_writeField_loop _ Hu).
Qed.

(** X18.  [Generate] of the first revision never asks and never skips, and
    it is the current [Generate] with [force] set whenever both emit the
    same text into the same directory. *)
Theorem Early_Generate_is_forced
        (ge : EarlyRun.Generator) (g : Generator) (table : Table) (w : World) :
  prompts (EarlyRun.Generate ge table w).2 = prompts w
  /\ (EarlyRun.Generate ge table w).1 <> Some ErrSkipped
  /\ (EarlyRun.outputDir ge = outputDir g -> force g = true ->
      EarlyRun.generateStruct ge table = generateStruct g table ->
      EarlyRun.Generate ge table w = Generate g table w).
Proof.
  unfold EarlyRun.Generate. split; [ | split].
  - destruct (MkdirAll_fails (EarlyRun.outputDir ge) (files w)); [reflexivity | ].
    destruct (format_Source (EarlyRun.generateStruct ge table)); [ | reflexivity].
    now destruct (WriteFile_fails _ _ (files w)).
  - destruct (MkdirAll_fails (EarlyRun.outputDir ge) (files w)); [discriminate | ].
    destruct (format_Source (EarlyRun.generateStruct ge table)); [ | discriminate].
    destruct (WriteFile_fails _ _ (files w)); discriminate.
  - intros Hdir Hforce Htext. unfold Generate. rewrite Hdir, Htext, Hforce.
    destruct (MkdirAll_fails (outputDir g) (files w)); [reflexivity | ].
    destruct (format_Source (generateStruct g table)) as [formatted | ];
      [ | reflexivity].
    cbn [negb].
    now destruct (files w !! filepath_Join (outputDir g)
                              (toSnakeCase (TableName table) +:+ ".go")).
Qed.

End Revisions.

Lemma Early_collectImports_contents_witness :
  mapKeys_spec backwardRun
  /\ Permutation (@Early.collectImports backwardRun events)
                 ["time"; "database/sql"].
Proof.
  split; [exact backwardRun_spec | ].
  exact (proj1 (@Early_collectImports_contents backwardRun events
                  backwardRun_spec)).
Defined.

Lemma Early_sql_import_unused_witness :
  mapKeys_spec forwardRun
  /\ In "database/sql" (@Early.collectImports forwardRun events).
Proof.
  split; [exact forwardRun_spec | ].
  exact (proj1 (@Early_sql_import_unused forwardRun events forwardRun_spec)
               eq_refl).
Defined.

Lemma revisions_emit_same_text_witness :
  @EarlyRun.generateStruct plainTables forwardRun
     (EarlyRun.New "models" "out") users
  = @generateStruct plainTables forwardRun (New "models" "out" []) users.
Proof.
  apply (@revisions_emit_same_text plainTables forwardRun
           (EarlyRun.New "models" "out") (New "models" "out" []) users
           forwardRun_spec eq_refl eq_refl).
  repeat constructor; discriminate.
Defined.

Lemma Early_Generate_is_forced_witness :
  @EarlyRun.Generate plainTables forwardRun quietPlatform
     (EarlyRun.New "models" "out") users existing
  = @Generate plainTables forwardRun quietPlatform
      (New "models" "out" [WithForce true; WithConfirmFunc decline])
      users existing.
Proof.
  exact (proj2 (proj2
    (@Early_Generate_is_forced plainTables forwardRun quietPlatform
       (EarlyRun.New "models" "out")
       (New "models" "out" [WithForce true; WithConfirmFunc decline])
       users existing)) eq_refl eq_refl eq_refl).
Defined.

(** ** The schema reader *)

Lemma scanLoop_got {A B : Type} (scan : A -> B) (rs : list A) :
  forall acc : list B,
    scanLoop scan (map Got rs) acc = Some (acc ++ map scan rs)%list.
Proof.
  induction rs as [ | r rs IH]; intros acc; cbn [map scanLoop].
  - now rewrite app_nil_r.
  - rewrite IH. now rewrite <- app_assoc.
Qed.

Lemma scanLoop_result {A B : Type} (scan : A -> B) (rows : list (Fetch A)) :
  forall acc : list B,
    match scanLoop scan rows acc with
    | Some out =>
      exists rs : list A, rows = map Got rs /\ out = (acc ++ map scan rs)%list
    | None => In ScanFails rows
    end.
Proof.
  induction rows as [ | [a | ] rows IH]; intros acc; cbn [scanLoop].
  - exists []. now rewrite app_nil_r.
  - specialize (IH (acc ++ [scan a])%list).
    destruct (scanLoop scan rows (acc ++ [scan a])%list) as [out | ].
    + destruct IH as (rs & -> & ->). exists (a :: rs).
      cbn [map]. now rewrite <- app_assoc.
    + now right.
  - now left.
Qed.

Section ReaderFacts.
Context {D : Database}.

(** X19.  when the query succeeds and every row scans, [GetTableSchema]
    returns the table under the name asked for, with one column per
    row in the order of the rows, each carrying the row's name and
    type, and nullable exactly when the row says [YES]; the error is
    that of [rows.Err()]. *)
Theorem GetTableSchema_columns
        (db tableName : string) (rows : Rows Row) (rs : list Row) :
  QueryColumns db tableName = Some rows ->
  fetched rows = map Got rs ->
  GetTableSchema db tableName
  = (Some {| TableName := tableName; Columns := map scanColumn rs |},
     if rowsErr rows then Some ErrRows else None)
  /\ length (map scanColumn rs) = length rs
  /\ (forall (i : nat) (r : Row),
        rs !! i = Some r ->
        exists col : Column,
          map scanColumn rs !! i = Some col
          /\ Name col = COLUMN_NAME r /\ DataType col = DATA_TYPE r
          /\ (IsNullable col = true <-> IS_NULLABLE r = "YES")).
Proof.
  intros Hq Hf. unfold GetTableSchema. rewrite Hq, Hf, scanLoop_got.
  cbn [app]. split; [reflexivity | ]. split; [apply length_map | ].
  intros i r Hi. exists (scanColumn r).
  split; [exact (lookup_map scanColumn rs i r Hi) | ].
  cbn [scanColumn Name DataType IsNullable]. repeat split.
  - apply String.eqb_eq.
  - apply String.eqb_eq.
Qed.

(** X20.  [GetTableSchema] returns a table only if the query succeeded and
    every row scanned, and then the table holds all the rows; one row
    that fails to scan discards the whole table.  A nil table always
    comes with an error. *)
Theorem GetTableSchema_all_or_nothing (db tableName : string) :
  match GetTableSchema db tableName with
  | (Some tbl, _) =>
    exists (rows : Rows Row) (rs : list Row),
      QueryColumns db tableName = Some rows /\ fetched rows = map Got rs
      /\ tbl = {| TableName := tableName; Columns := map scanColumn rs |}
  | (None, err) =>
    (err = Some ErrQuery /\ QueryColumns db tableName = None)
    \/ (err = Some ErrScan
        /\ exists rows : Rows Row,
            QueryColumns db tableName = Some rows
            /\ In ScanFails (fetched rows))
  end.
Proof.
  unfold GetTableSchema.
  destruct (QueryColumns db tableName) as [rows | ]; [ | now left].
  pose proof (scanLoop_result scanColumn (fetched rows) []) as H.
  destruct (scanLoop scanColumn (fetched rows) []) as [out | ].
  - destruct H as (rs & Hf & ->). now exists rows, rs.
  - right. split; [reflexivity | now exists rows].
Qed.

End ReaderFacts.

(** ** confirmOverwrite *)

Lemma asciiSpace_spec (c : ascii) :
  asciiSpace c = true ->
  (utf8.RuneSelf <=? byteZ c)%Z = false /\ (byteZ c <? 0x80)%Z = true
  /\ isUpperByte c = false /\ lowerByte c = c.
Proof. each_byte c. Qed.

Lemma asciiSpace_lowerByte (c : ascii) :
  asciiSpace (lowerByte c) = asciiSpace c.
Proof. each_byte c. Qed.

Lemma ascii_RuneSelf (c : ascii) :
  (byteZ c <? 0x80)%Z = true -> (utf8.RuneSelf <=? byteZ c)%Z = false.
Proof. each_byte c. Qed.

Lemma lowerByte_ascii_inv (c : ascii) :
  (byteZ (lowerByte c) <? 0x80)%Z = true -> (byteZ c <? 0x80)%Z = true.
Proof. each_byte c. Qed.

Lemma mapBytes_app (f : ascii -> ascii) (s1 s2 : string) :
  strings.mapBytes f (s1 +:+ s2)
  = strings.mapBytes f s1 +:+ strings.mapBytes f s2.
Proof.
  induction s1 as [ | c s1 IH]; [reflexivity | ].
  cbn [String.append strings.mapBytes]. now rewrite IH.
Qed.

Lemma mapBytes_app_inv (f : ascii -> ascii) (s a b : string) :
  strings.mapBytes f s = a +:+ b ->
  exists a' b', s = a' +:+ b' /\ strings.mapBytes f a' = a
                /\ strings.mapBytes f b' = b.
Proof.
  revert s. induction a as [ | c a IH]; intros s H.
  - exists "", s. repeat split. exact H.
  - destruct s as [ | c' s]; [discriminate | ].
    cbn [strings.mapBytes String.append] in H. injection H as Hc H.
    destruct (IH s H) as (a' & b' & -> & <- & <-).
    exists (String c' a'), b'. cbn [strings.mapBytes]. now rewrite Hc.
Qed.

Lemma mapBytes_same (f : ascii -> ascii) (s : string) :
  strings.allBytes (fun c => Ascii.eqb (f c) c) s = true ->
  strings.mapBytes f s = s.
Proof.
  induction s as [ | c s IH]; [reflexivity | ].
  cbn [strings.allBytes strings.mapBytes]. intros H.
  apply andb_true_iff in H as [Hc H]. apply Ascii.eqb_eq in Hc.
  now rewrite Hc, (IH H).
Qed.

Lemma allBytes_app (p : ascii -> bool) (s1 s2 : string) :
  strings.allBytes p (s1 +:+ s2)
  = strings.allBytes p s1 && strings.allBytes p s2.
Proof.
  induction s1 as [ | c s1 IH]; [reflexivity | ].
  cbn [String.append strings.allBytes]. now rewrite IH, andb_assoc.
Qed.

Lemma spaces_unmapped (s : string) :
  strings.allBytes asciiSpace (strings.mapBytes lowerByte s) = true ->
  strings.allBytes asciiSpace s = true.
Proof.
  induction s as [ | c s IH]; [reflexivity | ].
  cbn [strings.mapBytes strings.allBytes]. rewrite asciiSpace_lowerByte.
  intros H. apply andb_true_iff in H as [-> H]. exact (IH H).
Qed.

Section ConfirmFacts.
Context {T : UnicodeTables} {F : TrimFallback}.

Lemma ToLower_ascii (s : string) :
  isASCII s = true -> strings_ToLower s = strings.mapBytes lowerByte s.
Proof.
  intros Hs. unfold strings_ToLower. unfold isASCII in Hs.
  change utf8.RuneSelf with 0x80%Z. rewrite Hs.
  destruct (strings.anyByte isUpperByte s) eqn:Hu; [reflexivity | ].
  symmetry. apply mapBytes_same. clear Hs.
  induction s as [ | c s IH]; [reflexivity | ].
  cbn [strings.anyByte] in Hu. apply orb_false_iff in Hu as [Hc Hu].
  cbn [strings.allBytes]. rewrite (IH Hu), (lowerByte_of_other c Hc).
  now rewrite Ascii.eqb_refl.
Qed.

Lemma trimStart_spaces (pre rest : string) :
  strings.allBytes asciiSpace pre = true ->
  trimStart (pre +:+ rest) = trimStart rest.
Proof.
  induction pre as [ | c pre IH]; [reflexivity | ].
  cbn [strings.allBytes String.append trimStart]. intros H.
  apply andb_true_iff in H as [Hc H].
  destruct (asciiSpace_spec c Hc) as (-> & _). now rewrite Hc, (IH H).
Qed.

Lemma trimStop_spaces (x post : string) :
  strings.allBytes asciiSpace post = true ->
  trimStop (x +:+ post) = trimStop x.
Proof.
  intros Hp. induction x as [ | c x IH].
  - cbn [String.append]. induction post as [ | c post IH]; [reflexivity | ].
    cbn [strings.allBytes] in Hp. apply andb_true_iff in Hp as [Hc Hp].
    cbn [trimStop]. rewrite (IH Hp).
    destruct (asciiSpace_spec c Hc) as (-> & _). now rewrite Hc.
  - cbn [String.append trimStop]. now rewrite IH.
Qed.

(** On an ASCII string [TrimSpace] cuts a run of spaces at each end. *)
Lemma trimStart_ascii (s : string) :
  isASCII s = true ->
  exists pre rest, trimStart s = inl rest /\ s = pre +:+ rest
                   /\ strings.allBytes asciiSpace pre = true
                   /\ isASCII rest = true.
Proof.
  unfold isASCII. induction s as [ | c s IH]; intros Hs.
  - now exists "", "".
  - cbn [strings.allBytes] in Hs. apply andb_true_iff in Hs as [Hc Hs].
    cbn [trimStart]. rewrite (ascii_RuneSelf c Hc).
    destruct (asciiSpace c) eqn:Hsp.
    + destruct (IH Hs) as (pre & rest & -> & -> & Hpre & Hrest).
      exists (String c pre), rest. cbn [strings.allBytes].
      now rewrite Hsp, Hpre.
    + exists "", (String c s). cbn [strings.allBytes]. now rewrite Hc, Hs.
Qed.

Lemma trimStop_ascii (s : string) :
  isASCII s = true ->
  exists kept post, trimStop s = (false, kept) /\ s = kept +:+ post
                    /\ strings.allBytes asciiSpace post = true.
Proof.
  unfold isASCII. induction s as [ | c s IH]; intros Hs.
  - now exists "", "".
  - cbn [strings.allBytes] in Hs. apply andb_true_iff in Hs as [Hc Hs].
    destruct (IH Hs) as (kept & post & Ht & -> & Hpost).
    cbn [trimStop]. rewrite Ht. destruct kept as [ | k kept].
    + rewrite (ascii_RuneSelf c Hc). destruct (asciiSpace c) eqn:Hsp.
      * exists "", (String c post). cbn [strings.allBytes String.append].
        now rewrite Hsp, Hpost.
      * now exists (String c ""), post.
    + now exists (String c (String k kept)), post.
Qed.

Lemma TrimSpace_ascii (s : string) :
  isASCII s = true ->
  exists pre post,
    s = pre +:+ strings_TrimSpace s +:+ post
    /\ strings.allBytes asciiSpace pre = true
    /\ strings.allBytes asciiSpace post = true.
Proof.
  intros Hs. unfold strings_TrimSpace.
  destruct (trimStart_ascii s Hs) as (pre & rest & -> & -> & Hpre & Hrest).
  destruct (trimStop_ascii rest Hrest) as (kept & post & -> & -> & Hpost).
  now exists pre, post.
Qed.

(** X21.  [confirmOverwrite] answers no to a line of nothing but ASCII
    white space (an empty line, or nothing at end of input); and on an
    ASCII line it answers yes exactly when the line is [y] or [yes], in
    any letter case, between ASCII white space. *)
Theorem confirmOverwrite_answers :
  (forall input : string,
      strings.allBytes asciiSpace input = true ->
      confirmOverwrite input = false)
  /\ (forall input : string,
        isASCII input = true ->
        (confirmOverwrite input = true <->
         exists pre core post : string,
           input = pre +:+ core +:+ post
           /\ strings.allBytes asciiSpace pre = true
           /\ strings.allBytes asciiSpace post = true
           /\ In (strings.mapBytes lowerByte core) ["y"; "yes"])).
Proof.
  split.
  - intros input Hsp.
    assert (Ha : isASCII input = true).
    { unfold isASCII. eapply allBytes_impl; [ | exact Hsp].
      intros c Hc. now destruct (asciiSpace_spec c Hc) as (_ & -> & _). }
    unfold confirmOverwrite. rewrite (ToLower_ascii input Ha).
    rewrite mapBytes_same
      by (eapply allBytes_impl; [ | exact Hsp];
          intros c Hc; destruct (asciiSpace_spec c Hc) as (_ & _ & _ & ->);
          apply Ascii.eqb_refl).
    unfold strings_TrimSpace.
    rewrite <- (append_nil_r input), (trimStart_spaces input "" Hsp).
    reflexivity.
  - intros input Ha. unfold confirmOverwrite.
    rewrite (ToLower_ascii input Ha). split.
    + intros H.
      assert (Hl : isASCII (strings.mapBytes lowerByte input) = true).
      { unfold isASCII in *. clear H.
        induction input as [ | c s IH]; [reflexivity | ].
        cbn [strings.allBytes strings.mapBytes] in Ha |- *.
        apply andb_true_iff in Ha as [Hc Hs].
        now rewrite (lowerByte_ascii c Hc), (IH Hs). }
      destruct (TrimSpace_ascii _ Hl) as (pre & post & Hd & Hpre & Hpost).
      set (k := strings_TrimSpace (strings.mapBytes lowerByte input)) in *.
      destruct (mapBytes_app_inv _ _ _ _ Hd) as (pre' & rest' & -> & Hp' & Hr').
      destruct (mapBytes_app_inv _ _ _ _ Hr') as (core & post' & -> & Hc' & Ho').
      exists pre', core, post'. split; [reflexivity | ].
      split; [apply spaces_unmapped; now rewrite Hp' | ].
      split; [apply spaces_unmapped; now rewrite Ho' | ].
      rewrite Hc'. apply orb_true_iff in H as [H | H];
        apply String.eqb_eq in H; rewrite H; simpl; tauto.
    + intros (pre & core & post & -> & Hpre & Hpost & Hin).
      rewrite !mapBytes_app.
      assert (Hid : forall s, strings.allBytes asciiSpace s = true ->
                              strings.mapBytes lowerByte s = s).
      { intros s Hs. apply mapBytes_same.
        eapply allBytes_impl; [ | exact Hs].
        intros c Hc. destruct (asciiSpace_spec c Hc) as (_ & _ & _ & ->).
        apply Ascii.eqb_refl. }
      rewrite (Hid pre Hpre), (Hid post Hpost).
      unfold strings_TrimSpace. rewrite (trimStart_spaces _ _ Hpre).
      destruct Hin as [<- | [<- | []]]; cbn [String.append trimStart];
        change (utf8.RuneSelf <=? byteZ "y")%Z with false;
        change (asciiSpace "y") with false; cbv iota;
        [ change (String "y" post) with ("y" +:+ post)
        | change (String "y" (String "e" (String "s" post)))
            with ("yes" +:+ post) ];
        rewrite (trimStop_spaces _ post Hpost); reflexivity.
Qed.

End ConfirmFacts.

Lemma GetTableSchema_columns_witness :
  @GetTableSchema sampleServer "app" "notes"
  = (Some {| TableName := "notes";
             Columns := [scanColumn idRow; scanColumn noteRow] |}, None).
Proof.
  exact (proj1 (@GetTableSchema_columns sampleServer "app" "notes"
                  {| fetched := [Got idRow; Got noteRow]; rowsErr := false |}
                  [idRow; noteRow] eq_refl eq_refl)).
Defined.

Lemma GetTableSchema_all_or_nothing_witness :
  (Some ErrScan = Some ErrQuery
   /\ @QueryColumns sampleServer "app" "broken" = None)
  \/ (Some ErrScan = Some ErrScan
      /\ exists rows : Rows Row,
          @QueryColumns sampleServer "app" "broken" = Some rows
          /\ In ScanFails (fetched rows)).
Proof.
  exact (@GetTableSchema_all_or_nothing sampleServer "app" "broken").
Defined.

Lemma confirmOverwrite_answers_witness :
  isASCII ("  YeS " +:+ nl) = true
  /\ @confirmOverwrite plainTables noFallback ("  YeS " +:+ nl) = true
  /\ @confirmOverwrite plainTables noFallback nl = false.
Proof.
  split; [reflexivity | ]. split.
  - apply (proj2 (@confirmOverwrite_answers plainTables noFallback)
             ("  YeS " +:+ nl) eq_refl).
    exists "  ", "YeS", (" " +:+ nl). repeat split. right. now left.
  - exact (proj1 (@confirmOverwrite_answers plainTables noFallback) nl eq_refl).
Defined.

(** ** main *)

Section MainFacts.
Context {T : UnicodeTables} {R : GoRuntime} {P : Platform}
        {F : TrimFallback} {D : Database} {U : Terminal}.

Lemma GetTableSchema_nil (db tableName : string) :
  GetTableSchema db tableName <> (None, None).
Proof.
  unfold GetTableSchema.
  destruct (QueryColumns db tableName) as [rows | ]; [ | discriminate].
  destruct (scanLoop scanColumn (fetched rows) []); discriminate.
Qed.

Lemma processTable_event (f : Flags) (tableName : string) (w : World) :
  exists e : Event,
    (processTable f tableName w).1 = [e] /\ eventTable e = Some tableName.
Proof.
  unfold processTable.
  pose proof (GetTableSchema_nil (database f) tableName) as Hn.
  destruct (GetTableSchema (database f) tableName) as [[tbl | ] [err | ]].
  - exists (ESchema tableName). now split.
  - destruct (Generate (genOf f w) tbl w) as [[[ | | code | ] | ] w'];
      eexists; split; reflexivity.
  - exists (ESchema tableName). now split.
  - congruence.
Qed.

Lemma processTables_app (f : Flags) (ts : list string) :
  forall (events : list Event) (w : World),
    fold_left
      (fun (st : list Event * World) tableName =>
         let '(events, w') := processTable f tableName st.2 in
         ((st.1 ++ events)%list, w'))
      ts (events, w)
    = ((events ++ (processTables f ts w).1)%list, (processTables f ts w).2).
Proof.
  unfold processTables.
  induction ts as [ | t ts IH]; intros events w; cbn [fold_left fst snd].
  - now rewrite app_nil_r.
  - destruct (processTable f t w) as [ev w1]. cbn [fst snd app].
    rewrite (IH (events ++ ev)%list w1), (IH ev w1). cbn [fst snd].
    now rewrite app_assoc.
Qed.

(** X22.  the loop of [main] reports exactly one event per table, in the
    order of the tables and naming each, whatever fails on the way: a
    table whose schema or generation fails does not stop the ones after
    it. *)
Theorem processTables_reports_each (f : Flags) (tables : list string) :
  forall w : World,
    Forall2 (fun t e => eventTable e = Some t)
            tables (processTables f tables w).1.
Proof.
  induction tables as [ | t ts IH]; intros w.
  - constructor.
  - unfold processTables. cbn [fold_left fst snd].
    destruct (processTable_event f t w) as (e & He & Ht).
    destruct (processTable f t w) as [ev w1]. cbn [fst] in He. subst ev.
    cbn [app]. rewrite processTables_app. cbn [fst app].
    constructor; [exact Ht | apply IH].
Qed.

Lemma main_fatal (f : Flags) (w : World) :
  (fatal f = true
   /\ (main f w).1.1 = 1%Z /\ (main f w).2 = w
   /\ exists e : Event,
        eventTable e = None /\ e <> ODone
        /\ ((main f w).1.2 = [e] \/ (main f w).1.2 = [e; EUsage]))
  \/ (fatal f = false
      /\ (main f w).1.1 = 0%Z
      /\ exists events : list Event, (main f w).1.2 = (events ++ [ODone])%list).
Proof.
  unfold fatal, main.
  destruct (String.eqb (database f) ""); cbn [orb];
    [left; repeat split; exists EDbRequired;
     repeat split; [discriminate | now right] | ].
  destruct (String.eqb (output f) ""); cbn [orb];
    [left; repeat split; exists EOutputRequired;
     repeat split; [discriminate | now right] | ].
  destruct (NewReader_fails (dsnOf f)); cbn [orb];
    [left; repeat split; exists EConnect;
     repeat split; [discriminate | now left] | ].
  destruct (String.eqb (table f) ""); cbn [negb andb].
  - destruct (GetTables (database f)) as [tables [err | ]]; cbn [snd present].
    + left; repeat split; exists EGetTables.
      repeat split; [discriminate | now left].
    + right. destruct (processTables f (default [] tables) w) as [events w'].
      cbn [fst snd]. repeat split. now exists events.
  - right.
    destruct (processTables f (default [] (Some [table f])) w) as [events w'].
    cbn [fst snd]. repeat split. now exists events.
Qed.

(** X23.  the exit status of the process.  It is 2 when the command
    line does not parse and 0 when it asks for help, both decided by
    [flag.Parse]; once the flags are set it is 1 when the database or
    the output flag is empty, the connection fails, or no table was
    named and listing the tables fails, and 0 otherwise, however the
    single tables fared.  The report ends with [Done!] exactly when the
    flags were set and none of these four failures happened; in every
    other case no table was processed and no file written. *)
Theorem main_exit_status (args : CommandLine) (w : World) :
  (run args w).1.1
  = match args with
    | BadFlag => 2%Z
    | HelpFlag => 0%Z
    | Parsed f => if fatal f then 1%Z else 0%Z
    end
  /\ ((exists events : list Event, (run args w).1.2 = (events ++ [ODone])%list)
      <-> exists f : Flags, args = Parsed f /\ fatal f = false)
  /\ ((forall f : Flags, args = Parsed f -> fatal f = true) ->
      (run args w).2 = w
      /\ Forall (fun e => eventTable e = None) (run args w).1.2).
Proof.
  assert (Hlast : forall (e : Event) (l events : list Event),
             e <> ODone -> (l = [e] \/ l = [e; EUsage]) ->
             l <> (events ++ [ODone])%list).
  { intros e l events He [-> | ->] H.
    - destruct events as [ | x [ | y events]]; cbn [app] in H;
        [injection H as H; now apply He | discriminate H | discriminate H].
    - destruct events as [ | x [ | y [ | z events]]]; cbn [app] in H;
        discriminate H. }
  destruct args as [ | | f]; cbn [run fst snd].
  - split; [reflexivity | ]. split.
    + split.
      * intros (events & H). now apply (Hlast EUsage) in H; [ | | left].
      * intros (f & H & _). discriminate H.
    + intros _. split; [reflexivity | repeat constructor].
  - split; [reflexivity | ]. split.
    + split.
      * intros (events & H). now apply (Hlast EUsage) in H; [ | | left].
      * intros (f & H & _). discriminate H.
    + intros _. split; [reflexivity | repeat constructor].
  - destruct (main_fatal f w)
      as [(Hf & Hs & Hw & e & He & Hd & Hl) | (Hf & Hs & events & Hl)];
      rewrite Hf, Hs; (split; [reflexivity | ]); split.
    + split.
      * intros (events & H). now apply (Hlast e _ events Hd) in Hl.
      * intros (f' & H & Hf'). injection H as <-. congruence.
    + intros _. split; [exact Hw | ].
      destruct Hl as [-> | ->]; repeat constructor; exact He.
    + split; [intros _; now exists f | intros _; now exists events].
    + intros H. specialize (H f eq_refl). congruence.
Qed.

End MainFacts.

Section MainEndToEnd.
Context {T : UnicodeTables} {R : GoRuntime} {P : Platform}
        {F : TrimFallback} {D : Database} {U : Terminal}.

Lemma generateStruct_empty_table (g : Generator) (tableName : string) :
  mapKeys_spec R ->
  generateStruct g {| TableName := tableName; Columns := [] |}
  = "package " +:+ packageName g +:+ nl +:+ nl
    +:+ "type " +:+ toCamelCase tableName +:+ " struct {" +:+ nl
    +:+ "}" +:+ nl.
Proof.
  intros HR. rewrite generateStruct_declaration.
  rewrite (collectImports_spec R _ HR). unfold declaration.
  cbn [Columns TableName existsb map importBlock String.concat].
  now rewrite !append_nil_l.
Qed.

(** X24.  when [main] is given a table name for which the columns query
    returns no row, as for a table that does not exist, it reports no
    error: it writes a file with an empty struct named after the table,
    prints [Generated] and exits with status 0. *)
Theorem main_table_without_rows (f : Flags) (w : World) (formatted : string) :
  mapKeys_spec R ->
  database f <> "" -> output f <> "" -> table f <> "" ->
  NewReader_fails (dsnOf f) = false ->
  QueryColumns (database f) (table f)
  = Some {| fetched := []; rowsErr := false |} ->
  MkdirAll_fails (output f) (files w) = false ->
  format_Source
    ("package " +:+ filepath_Base (output f) +:+ nl +:+ nl
     +:+ "type " +:+ toCamelCase (table f) +:+ " struct {" +:+ nl
     +:+ "}" +:+ nl) = Some formatted ->
  files w !! filepath_Join (output f) (toSnakeCase (table f) +:+ ".go") = None ->
  WriteFile_fails (filepath_Join (output f) (toSnakeCase (table f) +:+ ".go"))
                  formatted (files w) = None ->
  main f w
  = (0%Z, [OGenerated (table f); ODone],
     {| files := <[filepath_Join (output f) (toSnakeCase (table f) +:+ ".go")
                   := formatted]> (files w);
        prompts := prompts w |}).
Proof.
  intros HR Hdb Hout Htab Hconn Hrows Hdir Hfmt Hnew Hwrite.
  apply String.eqb_neq in Hdb, Hout, Htab.
  unfold main. rewrite Hdb, Hout, Hconn, Htab. cbn [negb].
  change (default [] (Some [table f])) with [table f].
  unfold processTables. cbn [fold_left fst snd].
  unfold processTable, GetTableSchema. rewrite Hrows. cbn [fetched rowsErr scanLoop].
  unfold Generate.
  change (outputDir (genOf f w)) with (output f). rewrite Hdir.
  rewrite (generateStruct_empty_table _ _ HR).
  change (packageName (genOf f w)) with (filepath_Base (output f)).
  rewrite Hfmt. cbn [TableName]. rewrite Hnew, Hwrite. reflexivity.
Qed.

End MainEndToEnd.

Lemma processTables_reports_each_witness :
  Forall2 (fun t e => eventTable e = Some t)
    ["notes"; "broken"; "absent"]
    (@processTables plainTables forwardRun quietPlatform noFallback sampleServer
       sayNo (flagsFor "") ["notes"; "broken"; "absent"] existing).1.
Proof.
  exact (@processTables_reports_each plainTables forwardRun quietPlatform
           noFallback sampleServer sayNo (flagsFor "")
           ["notes"; "broken"; "absent"] existing).
Defined.

Lemma main_exit_status_witness :
  (@run plainTables forwardRun quietPlatform noFallback sampleServer sayNo
     (Parsed (flagsFor "")) existing).1.1 = 0%Z.
Proof.
  exact (proj1 (@main_exit_status plainTables forwardRun quietPlatform
                  noFallback sampleServer sayNo (Parsed (flagsFor ""))
                  existing)).
Defined.

Lemma main_table_without_rows_witness :
  (@main plainTables forwardRun quietPlatform noFallback sampleServer sayNo
     (flagsFor "absent") blank).1
  = (0%Z, [OGenerated "absent"; ODone]).
Proof.
  rewrite (@main_table_without_rows plainTables forwardRun quietPlatform
             noFallback sampleServer sayNo (flagsFor "absent") blank
             ("package models" +:+ nl +:+ nl +:+ "type Absent struct {" +:+ nl
              +:+ "}" +:+ nl)
             forwardRun_spec); try reflexivity; discriminate.
Defined.

(** ** Names of files and of types *)

Section Names.
Context {T : UnicodeTables} {P : Platform}.

(** X25.  for a table whose name is valid UTF-8 without uppercase
    character, the file [Generate] targets is the output directory
    joined with the table name and [.go]. *)
Theorem targetPath_plain_name (g : Generator) (table : Table) :
  ValidString (TableName table) = true ->
  Forall (fun r => unicode.IsUpper r = false) (runes (TableName table)) ->
  targetPath g table = filepath_Join (outputDir g) (TableName table +:+ ".go").
Proof.
  intros Hv Hn. unfold targetPath.
  rewrite toSnakeCase_runes, (toFileCase_no_upper _ Hn).
  now rewrite (runes_valid _ Hv).
Qed.

(** X26.  for a snake-case name made of ASCII letters, digits and
    underscores, the name [toCamelCase] makes is an exported Go
    identifier: an uppercase ASCII letter followed by ASCII letters and
    digits. *)
Theorem snake_name_exported (s : string) :
  isSnakeName s = true ->
  strings.allBytes isWordByte s = true ->
  isExported (toCamelCase s) = true
  /\ strings.allBytes (fun c => negb (Ascii.eqb c "_"%char)) (toCamelCase s)
     = true.
Proof.
  intros Hs Hw. rewrite (toCamelCase_scan s (isSnakeFrom_ascii s true Hs)).
  split; [ | apply camelScan_bytes].
  assert (Hrest : forall (t : string) (start : bool),
             strings.allBytes isWordByte t = true ->
             strings.allBytes isWordByte (camelScan start t) = true).
  { induction t as [ | c t IH]; intros start; [reflexivity | ].
    cbn [strings.allBytes camelScan]. intros H.
    apply andb_true_iff in H as [Hc H].
    destruct (Ascii.eqb c "_"%char); [exact (IH true H) | ].
    cbn [strings.allBytes]. rewrite (IH false H), andb_true_r.
    destruct start; [ | exact Hc]. revert Hc. each_byte c. }
  unfold isSnakeName in Hs. destruct s as [ | c s]; [discriminate | ].
  cbn [isSnakeFrom] in Hs. cbn [camelScan strings.allBytes] in *.
  destruct (Ascii.eqb c "_"%char); [discriminate | ].
  apply andb_true_iff in Hs as [Hc _]. apply andb_true_iff in Hw as [_ Hw].
  cbn [isExported]. destruct (upperByte_of_lower c Hc) as (-> & _).
  exact (Hrest s false Hw).
Qed.

End Names.

Lemma targetPath_plain_name_witness :
  @targetPath plainTables quietPlatform (New "models" "out" []) user_accounts
  = "out/user_accounts.go".
Proof.
  rewrite (@targetPath_plain_name plainTables quietPlatform
             (New "models" "out" []) user_accounts eq_refl).
  - reflexivity.
  - repeat constructor.
Defined.

Lemma snake_name_exported_witness :
  isExported (@toCamelCase plainTables "created_at") = true.
Proof.
  exact (proj1 (@snake_name_exported plainTables "created_at"
                  eq_refl eq_refl)).
Defined.

Section ReaderTables.
Context {D : Database}.

(** X27.  [GetTables] returns the table names in the order of the rows
    when every row scans, with the error of [rows.Err()]; when the query
    fails or one row does not scan it returns no list and an error. *)
Theorem GetTables_names (db : string) :
  match QueryTables db with
  | None => GetTables db = (None, Some ErrQuery)
  | Some rows =>
    (forall names : list string,
        fetched rows = map Got names ->
        GetTables db
        = (Some names, if rowsErr rows then Some ErrRows else None))
    /\ (In ScanFails (fetched rows) -> GetTables db = (None, Some ErrScan))
  end.
Proof.
  unfold GetTables. destruct (QueryTables db) as [rows | ]; [ | reflexivity].
  split.
  - intros names ->. rewrite scanLoop_got. cbn [app]. now rewrite map_id.
  - intros Hin.
    pose proof (scanLoop_result (fun name : string => name) (fetched rows) [])
      as H.
    destruct (scanLoop (fun name : string => name) (fetched rows) [])
      as [out | ]; [ | reflexivity].
    destruct H as (rs & Hf & _). rewrite Hf in Hin.
    apply in_map_iff in Hin as (x & Hx & _). discriminate Hx.
Qed.

End ReaderTables.

Lemma GetTables_names_witness :
  @GetTables sampleServer "app" = (Some ["notes"; "broken"], None).
Proof.
  exact (proj1 (@GetTables_names sampleServer "app") ["notes"; "broken"]
               eq_refl).
Defined.
